(** * opentui: the FFI binding [src/zig.ts] and the engine contract behind it

    The TypeScript file wraps a native rendering library that is loaded
    with [dlopen].  This development embeds the wrapper class
    [FFIRenderLib], the module-level memoisation ([setRenderLibPath],
    [resolveRenderLib]) and the few JavaScript run-time notions the
    wrapper relies on (nullish coalescing, truthiness, UTF-16 strings,
    [TextEncoder], typed-array views), and proves what the wrapper hands
    to the native symbols.

    The native engine itself is not part of the TypeScript source.  It
    appears here as a record of symbols over an arbitrary native state;
    the parts of it that the specification describes (cell buffers, hit
    grid) are modelled separately from the specification's text. *)

From Stdlib Require Import ZArith NArith QArith Lia String Ascii.
From stdpp Require Import base option list gmap strings.

Set Default Proof Using "Type".

(** ** JavaScript run-time notions *)

Module JS.

(** The outcome of evaluating a JavaScript expression: a value, or a
    thrown [Error] with its message. *)
Inductive Result (A : Type) : Type :=
| Ok (a : A)
| Throw (msg : string).
Global Arguments Ok {A} a.
Global Arguments Throw {A} msg.

Definition is_ok {A} (r : Result A) : bool :=
  match r with Ok _ => true | Throw _ => false end.

(** Code that calls into the native library runs against the library's
    state [St]; a throw keeps the effects that happened before it. *)
Definition M (St A : Type) : Type := St → Result A * St.

Definition ret {St A} (a : A) : M St A := λ s, (Ok a, s).

Definition throw {St A} (msg : string) : M St A := λ s, (Throw msg, s).

Definition bind {St A B} (m : M St A) (k : A → M St B) : M St B :=
  λ s, match m s with
       | (Ok a, s') => k a s'
       | (Throw msg, s') => (Throw msg, s')
       end.

(** A native symbol that returns a value, and one that returns [void]. *)
Definition call {St A} (f : St → A * St) : M St A :=
  λ s, let '(a, s') := f s in (Ok a, s').

Definition exec {St} (f : St → St) : M St unit :=
  λ s, (Ok tt, f s).

(** [o ?? d]: the left operand unless it is [undefined] or [null]. *)
Definition nullish {A} (o : option A) (d : A) : A :=
  match o with Some v => v | None => d end.

(** A JavaScript string is a sequence of UTF-16 code units. *)
Definition JSString : Type := list N.

Definition js (s : string) : JSString :=
  List.map N_of_ascii (list_ascii_of_string s).

Definition is_high_surrogate (u : N) : bool :=
  ((0xD800 <=? u) && (u <=? 0xDBFF))%N.

Definition is_low_surrogate (u : N) : bool :=
  ((0xDC00 <=? u) && (u <=? 0xDFFF))%N.

Definition combine_surrogates (hi lo : N) : N :=
  ((hi - 0xD800) * 0x400 + (lo - 0xDC00) + 0x10000)%N.

(** [String.prototype.codePointAt(0)]: [undefined] on the empty string;
    a surrogate pair at the front is combined, any other leading code
    unit (a lone surrogate included) is returned as it is. *)
Definition codePointAt0 (s : JSString) : option N :=
  match s with
  | [] => None
  | hi :: rest =>
      if is_high_surrogate hi then
        match rest with
        | lo :: _ => if is_low_surrogate lo
                     then Some (combine_surrogates hi lo)
                     else Some hi
        | [] => Some hi
        end
      else Some hi
  end.

(** The code points of a string in the order of the string iterator
    ([[...s]]): a high surrogate followed by a low one is one code point,
    every other code unit stands for itself. *)
Fixpoint code_points (s : JSString) : list N :=
  match s with
  | [] => []
  | hi :: rest =>
      if is_high_surrogate hi then
        match rest with
        | lo :: rest' =>
            if is_low_surrogate lo
            then combine_surrogates hi lo :: code_points rest'
            else hi :: code_points rest
        | [] => [hi]
        end
      else hi :: code_points rest
  end.

(** The UTF-16 encoding of one code point ([String.fromCodePoint]). *)
Definition utf16_of_code_point (c : N) : JSString :=
  if (c <? 0x10000)%N then [c]
  else [(0xD800 + (c - 0x10000) / 0x400)%N;
        (0xDC00 + (c - 0x10000) mod 0x400)%N].

(** The UTF-8 encoding of one scalar value. *)
Definition utf8_of_code_point (c : N) : list N :=
  if (c <? 0x80)%N then [c]
  else if (c <? 0x800)%N then
    [N.lor 0xC0 (N.shiftr c 6);
     N.lor 0x80 (N.land c 0x3F)]
  else if (c <? 0x10000)%N then
    [N.lor 0xE0 (N.shiftr c 12);
     N.lor 0x80 (N.land (N.shiftr c 6) 0x3F);
     N.lor 0x80 (N.land c 0x3F)]
  else
    [N.lor 0xF0 (N.shiftr c 18);
     N.lor 0x80 (N.land (N.shiftr c 12) 0x3F);
     N.lor 0x80 (N.land (N.shiftr c 6) 0x3F);
     N.lor 0x80 (N.land c 0x3F)].

(** [TextEncoder.prototype.encode] turns the string into scalar values,
    a lone surrogate becoming U+FFFD, and writes each one in UTF-8. *)
Definition scalar_value (c : N) : N :=
  if is_high_surrogate c || is_low_surrogate c then 0xFFFD%N else c.

Definition encode (s : JSString) : list N :=
  List.concat (List.map (λ c, utf8_of_code_point (scalar_value c)) (code_points s)).

(** The result of [encode] is a [Uint8Array]; its [byteLength] is the
    number of bytes it holds. *)
Definition byteLength (bytes : list N) : N := N.of_nat (length bytes).

(** An [ArrayBuffer] over foreign memory, as [toArrayBuffer(ptr,
    byteOffset, byteLength)] of [bun:ffi] makes it: where it starts and
    how many bytes it spans. *)
Record ArrayBuffer : Type := mkArrayBuffer {
  ab_address : N;
  ab_byteLength : N
}.

(** [toArrayBuffer] belongs to the run time, not to the source.  It
    throws for a range it cannot map; which ranges those are, and with
    what message, is the run time's: [refusal ptr byteOffset byteLength]
    is the message of the error, [None] when the range is mapped. *)
Record Runtime : Type := mkRuntime {
  refusal : N → N → N → option string
}.

(** A range of no bytes is never mapped: [toArrayBuffer] throws a
    [TypeError] for a length of 0. *)
Definition toArrayBuffer (bun : Runtime) (ptr byteOffset byteLength : N)
    : Result ArrayBuffer :=
  if (byteLength =? 0)%N then Throw "length must be > 0"
  else
    match refusal bun ptr byteOffset byteLength with
    | Some msg => Throw msg
    | None => Ok {| ab_address := ptr + byteOffset;
                    ab_byteLength := byteLength |}
    end.

(** A typed array constructed from an [ArrayBuffer] spans the whole
    buffer; the constructor throws a [RangeError] unless the byte length
    is a multiple of the element size. *)
Record TypedArray : Type := mkTypedArray {
  ta_buffer : ArrayBuffer;
  ta_bytesPerElement : N;
  ta_length : N
}.

Definition newTypedArray (bytesPerElement : N) (ab : ArrayBuffer)
  : Result TypedArray :=
  if (ab_byteLength ab mod bytesPerElement =? 0)%N then
    Ok {| ta_buffer := ab;
          ta_bytesPerElement := bytesPerElement;
          ta_length := (ab_byteLength ab / bytesPerElement)%N |}
  else Throw "RangeError: byte length should be a multiple of the element size".

Definition newUint32Array := newTypedArray 4.
Definition newFloat32Array := newTypedArray 4.
Definition newUint8Array := newTypedArray 1.

End JS.

Export JS.

Notation "o ?? d" := (nullish o d) (at level 45, left associativity).

Global Instance M_ret {St} : MRet (M St) := λ A, @JS.ret St A.
Global Instance M_bind {St} : MBind (M St) := λ A B k m, @JS.bind St A B m k.

(** ** The native symbols

    [dlopen] is given a table of symbols with their C types; the wrapper
    reaches the engine only through [this.opentui.symbols].  A [u32],
    [u8] or [usize] is an [N], an [i32] a [Z], a [ptr] argument an
    address, and a [ptr] result is [None] when the native function
    returned the null pointer.  The state [St] of the engine is
    arbitrary.  The record lists the symbols that the methods embedded
    below call.  Numbers are exact integers: the only arithmetic of the
    wrapper is [width * height] and the byte counts [size * 4] and
    [size * 4 * 4]. *)

Definition Pointer : Type := N.

(** [!p] for a value of type [Pointer | null]. *)
Definition falsy (p : option Pointer) : bool :=
  match p with
  | None => true
  | Some a => (a =? 0)%N
  end.

(** The address a truthy [Pointer | null] stands for when it is handed
    back to [bun:ffi]. *)
Definition address (p : option Pointer) : Pointer :=
  match p with
  | None => 0%N
  | Some a => a
  end.

Module RGBA.
(** Modelled from the spec: the class [RGBA] of [./types] is not in the
    source.  The wrapper only reads its [buffer], the four channels
    (r, g, b, a) that §3 gives every colour; a channel is written as a
    rational. *)
Record t : Type := mk {
  buffer : list Q
}.
End RGBA.

Abbreviation RGBA := RGBA.t.

Record Symbols (St : Type) : Type := mkSymbols {
  sym_createRenderer : N → N → St → option Pointer * St;
  sym_getNextBuffer : Pointer → St → option Pointer * St;
  sym_getCurrentBuffer : Pointer → St → option Pointer * St;
  sym_createOptimizedBuffer : N → N → bool → St → option Pointer * St;
  sym_drawFrameBuffer : Pointer → Z → Z → Pointer → N → N → N → N → St → St;
  sym_getBufferWidth : Pointer → St → N * St;
  sym_getBufferHeight : Pointer → St → N * St;
  sym_bufferGetCharPtr : Pointer → St → option Pointer * St;
  sym_bufferGetFgPtr : Pointer → St → option Pointer * St;
  sym_bufferGetBgPtr : Pointer → St → option Pointer * St;
  sym_bufferGetAttributesPtr : Pointer → St → option Pointer * St;
  sym_bufferDrawText :
    Pointer → list N → N → N → N → list Q → option (list Q) → N → St → St;
  sym_bufferSetCellWithAlphaBlending :
    Pointer → N → N → N → list Q → list Q → N → St → St;
  sym_bufferFillRect : Pointer → N → N → N → N → list Q → St → St;
  sym_bufferResize : Pointer → N → N → St → St;
  sym_bufferDrawSuperSampleBuffer :
    Pointer → N → N → Pointer → N → N → N → St → St;
  sym_addToHitGrid : Pointer → Z → Z → N → N → N → St → St;
  sym_checkHit : Pointer → N → N → St → N * St;
  sym_clearHitGrid : Pointer → St → St
}.

Arguments sym_createRenderer {St} _.
Arguments sym_getNextBuffer {St} _.
Arguments sym_getCurrentBuffer {St} _.
Arguments sym_createOptimizedBuffer {St} _.
Arguments sym_drawFrameBuffer {St} _.
Arguments sym_getBufferWidth {St} _.
Arguments sym_getBufferHeight {St} _.
Arguments sym_bufferGetCharPtr {St} _.
Arguments sym_bufferGetFgPtr {St} _.
Arguments sym_bufferGetBgPtr {St} _.
Arguments sym_bufferGetAttributesPtr {St} _.
Arguments sym_bufferDrawText {St} _.
Arguments sym_bufferSetCellWithAlphaBlending {St} _.
Arguments sym_bufferFillRect {St} _.
Arguments sym_bufferResize {St} _.
Arguments sym_bufferDrawSuperSampleBuffer {St} _.
Arguments sym_addToHitGrid {St} _.
Arguments sym_checkHit {St} _.
Arguments sym_clearHitGrid {St} _.

(** ** The class [FFIRenderLib] *)

(** An instance holds the opened library; [self] is the identity of the
    object that [new] allocated. *)
Record FFIRenderLib (St : Type) : Type := mkFFIRenderLib {
  self : nat;
  opentui : Symbols St
}.

Arguments self {St} _.
Arguments opentui {St} _.

(** The four views that [getBuffer] returns. *)
Record Buffers : Type := mkBuffers {
  char : TypedArray;
  fg : TypedArray;
  bg : TypedArray;
  attributes : TypedArray
}.

(** Modelled from the spec: the class [OptimizedBuffer] of [./buffer] is
    not in the source.  It is the CellBuffer of §3 as the host sees it;
    the model keeps what the constructor is given: the library, the native
    pointer, the four views, width, height and the [respectAlpha] option
    ([None] for the empty options object). *)
Record OptimizedBuffer (St : Type) : Type := mkOptimizedBuffer {
  ob_lib : FFIRenderLib St;
  ob_ptr : Pointer;
  ob_buffers : Buffers;
  ob_width : N;
  ob_height : N;
  ob_respectAlpha : option bool
}.

Arguments ob_lib {St} _.
Arguments ob_ptr {St} _.
Arguments ob_buffers {St} _.
Arguments ob_width {St} _.
Arguments ob_height {St} _.
Arguments ob_respectAlpha {St} _.

Definition of_result {St A} (r : Result A) : M St A := λ s, (r, s).

Section Methods.

Context {St : Type} (bun : Runtime) (this : FFIRenderLib St).

Let symbols : Symbols St := opentui this.


Definition getBuffer (bufferPtr : Pointer) (size : N) : M St Buffers :=
  charPtr ← call (sym_bufferGetCharPtr symbols bufferPtr);
  fgPtr ← call (sym_bufferGetFgPtr symbols bufferPtr);
  bgPtr ← call (sym_bufferGetBgPtr symbols bufferPtr);
  attributesPtr ← call (sym_bufferGetAttributesPtr symbols bufferPtr);
  if falsy charPtr || falsy fgPtr || falsy bgPtr || falsy attributesPtr
  then throw "Failed to get buffer pointers"
  else
    charBytes ← of_result (toArrayBuffer bun (address charPtr) 0 (size * 4));
    char ← of_result (newUint32Array charBytes);
    fgBytes ← of_result (toArrayBuffer bun (address fgPtr) 0 (size * 4 * 4));
    fg ← of_result (newFloat32Array fgBytes);
    bgBytes ← of_result (toArrayBuffer bun (address bgPtr) 0 (size * 4 * 4));
    bg ← of_result (newFloat32Array bgBytes);
    attributesBytes ← of_result
      (toArrayBuffer bun (address attributesPtr) 0 size);
    attributes ← of_result (newUint8Array attributesBytes);
    mret {| char := char; fg := fg; bg := bg; attributes := attributes |}.

Definition getNextBuffer (renderer : Pointer) : M St (OptimizedBuffer St) :=
  bufferPtr ← call (sym_getNextBuffer symbols renderer);
  if falsy bufferPtr then throw "Failed to get next buffer"
  else
    width ← call (sym_getBufferWidth symbols (address bufferPtr));
    height ← call (sym_getBufferHeight symbols (address bufferPtr));
    let size := (width * height)%N in
    buffers ← getBuffer (address bufferPtr) size;
    mret (mkOptimizedBuffer St this (address bufferPtr) buffers width height None).

Definition getCurrentBuffer (renderer : Pointer) : M St (OptimizedBuffer St) :=
  bufferPtr ← call (sym_getCurrentBuffer symbols renderer);
  if falsy bufferPtr then throw "Failed to get current buffer"
  else
    width ← call (sym_getBufferWidth symbols (address bufferPtr));
    height ← call (sym_getBufferHeight symbols (address bufferPtr));
    let size := (width * height)%N in
    buffers ← getBuffer (address bufferPtr) size;
    mret (mkOptimizedBuffer St this (address bufferPtr) buffers width height None).

Definition bufferDrawText (buffer : Pointer) (text : JSString) (x y : N)
    (color : RGBA) (bgColor : option RGBA) (attributes : option N) : M St unit :=
  let textBytes := encode text in
  let textLength := byteLength textBytes in
  let bg := match bgColor with Some c => Some (RGBA.buffer c) | None => None end in
  let fg := RGBA.buffer color in
  exec (sym_bufferDrawText symbols buffer textBytes textLength x y fg bg
          (attributes ?? 0%N)).

Definition bufferSetCellWithAlphaBlending (buffer : Pointer) (x y : N)
    (char : JSString) (color bgColor : RGBA) (attributes : option N) : M St unit :=
  (* [" ".codePointAt(0)!]: the assertion has no run-time effect, the
     value is 32 *)
  let charPtr := codePointAt0 char ?? (codePointAt0 (js " ") ?? 0%N) in
  let bg := RGBA.buffer bgColor in
  let fg := RGBA.buffer color in
  exec (sym_bufferSetCellWithAlphaBlending symbols buffer x y charPtr fg bg
          (attributes ?? 0%N)).

Definition bufferFillRect (buffer : Pointer) (x y width height : N)
    (color : RGBA) : M St unit :=
  let bg := RGBA.buffer color in
  exec (sym_bufferFillRect symbols buffer x y width height bg).

Definition bufferDrawSuperSampleBuffer (buffer : Pointer) (x y : N)
    (pixelDataPtr : Pointer) (pixelDataLength : N) (format : string)
    (alignedBytesPerRow : N) : M St unit :=
  let formatId := if String.eqb format "bgra8unorm" then 0%N else 1%N in
  exec (sym_bufferDrawSuperSampleBuffer symbols buffer x y pixelDataPtr
          pixelDataLength formatId alignedBytesPerRow).

Definition bufferResize (buffer : Pointer) (width height : N) : M St Buffers :=
  exec (sym_bufferResize symbols buffer width height) ;;
  buffers ← getBuffer buffer (width * height)%N;
  mret buffers.

Definition createOptimizedBuffer (width height : N) (respectAlpha : option bool)
    : M St (OptimizedBuffer St) :=
  let respectAlpha := respectAlpha ?? false in
  bufferPtr ← call (sym_createOptimizedBuffer symbols width height respectAlpha);
  if falsy bufferPtr then throw "Failed to create optimized buffer"
  else
    let size := (width * height)%N in
    buffers ← getBuffer (address bufferPtr) size;
    mret (mkOptimizedBuffer St this (address bufferPtr) buffers width height
            (Some respectAlpha)).

Definition drawFrameBuffer (targetBufferPtr : Pointer) (destX destY : Z)
    (bufferPtr : Pointer) (sourceX sourceY sourceWidth sourceHeight : option N)
    : M St unit :=
  let srcX := sourceX ?? 0%N in
  let srcY := sourceY ?? 0%N in
  let srcWidth := sourceWidth ?? 0%N in
  let srcHeight := sourceHeight ?? 0%N in
  exec (sym_drawFrameBuffer symbols targetBufferPtr destX destY bufferPtr
          srcX srcY srcWidth srcHeight).

Definition addToHitGrid (renderer : Pointer) (x y : Z) (width height id : N)
    : M St unit :=
  exec (sym_addToHitGrid symbols renderer x y width height id).

Definition checkHit (renderer : Pointer) (x y : N) : M St N :=
  call (sym_checkHit symbols renderer x y).

Definition clearHitGrid (renderer : Pointer) : M St unit :=
  exec (sym_clearHitGrid symbols renderer).

End Methods.

(** ** Loading the library and the module-level memo *)

(** What [findLibrary] and [getOpenTUILib] ask of the host: the platform
    strings, the package name read from [package.json], module
    resolution ([None] when [require.resolve] throws), the file system,
    and [dlopen] (which throws when the library cannot be opened). *)
Record Host (St : Type) : Type := mkHost {
  platform : string;
  arch : string;
  suffix : string;
  packageName : string;
  require_resolve : string → option string;
  existsSync : string → bool;
  dlopen : string → Result (Symbols St)
}.

Arguments platform {St} _.
Arguments arch {St} _.
Arguments suffix {St} _.
Arguments packageName {St} _.
Arguments require_resolve {St} _.
Arguments existsSync {St} _.
Arguments dlopen {St} _.

Section Loading.

Context {St : Type} (host : Host St).

Definition unsupported : string :=
  "opentui is not supported on the current platform: "
    +:+ platform host +:+ "-" +:+ arch host.

Definition findLibrary : Result string :=
  let isWindows := String.eqb (platform host) "win32" in
  let libraryName := if isWindows then "opentui" else "libopentui" in
  match require_resolve host
          (packageName host +:+ "-" +:+ platform host +:+ "-" +:+ arch host
             +:+ "/" +:+ libraryName +:+ "." +:+ suffix host) with
  | Some targetLibPath =>
      if existsSync host targetLibPath then Ok targetLibPath
      else Throw unsupported
  | None => Throw unsupported
  end.

(** [libPath || findLibrary()]: [undefined] and the empty string are
    falsy. *)
Definition resolvedLibPath (libPath : option string) : Result string :=
  match libPath with
  | Some p => if String.eqb p "" then findLibrary else Ok p
  | None => findLibrary
  end.

Definition getOpenTUILib (libPath : option string) : Result (Symbols St) :=
  match resolvedLibPath libPath with
  | Ok path => dlopen host path
  | Throw msg => Throw msg
  end.

(** [new FFIRenderLib(libPath)]; [id] is the identity of the new object. *)
Definition newFFIRenderLib (id : nat) (libPath : option string)
    : Result (FFIRenderLib St) :=
  match getOpenTUILib libPath with
  | Ok lib => Ok {| self := id; opentui := lib |}
  | Throw msg => Throw msg
  end.

(** The two module variables, and the number of objects allocated so
    far. *)
Record ModuleState : Type := mkModuleState {
  opentuiLibPath : option string;
  opentuiLib : option (FFIRenderLib St);
  allocated : nat
}.

Definition initialModuleState : ModuleState :=
  {| opentuiLibPath := None; opentuiLib := None; allocated := 0 |}.

Definition setRenderLibPath (libPath : string) : M ModuleState unit :=
  λ ms, (Ok tt, {| opentuiLibPath := Some libPath;
                   opentuiLib := opentuiLib ms;
                   allocated := allocated ms |}).

Definition resolveRenderLib : M ModuleState (FFIRenderLib St) :=
  λ ms,
    match opentuiLib ms with
    | None =>
        match newFFIRenderLib (allocated ms) (opentuiLibPath ms) with
        | Ok lib => (Ok lib, {| opentuiLibPath := opentuiLibPath ms;
                                opentuiLib := Some lib;
                                allocated := S (allocated ms) |})
        | Throw msg => (Throw msg, ms)
        end
    | Some lib => (Ok lib, ms)
    end.

(** A client of the module: any sequence of calls to its two exports.
    [run] returns what each [resolveRenderLib] of the sequence gave. *)
Inductive ModuleCall : Type :=
| CallSetRenderLibPath (libPath : string)
| CallResolveRenderLib.

Fixpoint run (calls : list ModuleCall) (ms : ModuleState)
    : list (Result (FFIRenderLib St)) * ModuleState :=
  match calls with
  | [] => ([], ms)
  | CallSetRenderLibPath p :: rest => run rest (snd (setRenderLibPath p ms))
  | CallResolveRenderLib :: rest =>
      let '(r, ms') := resolveRenderLib ms in
      let '(rs, ms'') := run rest ms' in
      (r :: rs, ms'')
  end.

End Loading.

Arguments opentuiLibPath {St} _.
Arguments opentuiLib {St} _.
Arguments allocated {St} _.

(** ** The engine behind the symbols

    The engine is native code that the TypeScript source only calls.  The
    definitions of this module follow the specification (§3, §4.1, §4.3);
    coordinates are mathematical integers. *)

Module Engine.

(** Modelled from the spec: a colour of §3, four channels in [0,1]; the
    native code is missing, the channels are rationals here. *)
Record Color : Type := mkColor {
  red : Q;
  green : Q;
  blue : Q;
  alpha : Q
}.

(** Reading the four channels behind a colour pointer, and writing them
    back as a run of four array entries. *)
Definition color_of (l : list Q) : Color :=
  {| red := nth 0 l 0%Q; green := nth 1 l 0%Q;
     blue := nth 2 l 0%Q; alpha := nth 3 l 0%Q |}.

Definition channels (c : Color) : list Q :=
  [red c; green c; blue c; alpha c].

(** Modelled from the spec: alpha-over of §4.1,
    [result = src*src.a + dst*(1-src.a)] for each colour channel and
    [result.a = src.a + dst.a*(1-src.a)]; the native code is missing. *)
Definition blend (src dst : Color) : Color :=
  let mix (s d : Q) : Q := (s * alpha src + d * (1 - alpha src))%Q in
  {| red := mix (red src) (red dst);
     green := mix (green src) (green dst);
     blue := mix (blue src) (blue dst);
     alpha := (alpha src + alpha dst * (1 - alpha src))%Q |}.

(** Modelled from the spec: the CellBuffer of §3, four parallel row-major
    arrays indexed by [y*width+x], the colour arrays holding four entries
    for each cell; the native code is missing. *)
Record CellBuffer : Type := mkCellBuffer {
  width : N;
  height : N;
  respectAlpha : bool;
  chars : list N;
  fgs : list Q;
  bgs : list Q;
  attrs : list N
}.

Definition inBounds (b : CellBuffer) (x y : Z) : bool :=
  (0 <=? x)%Z && (x <? Z.of_N (width b))%Z &&
  (0 <=? y)%Z && (y <? Z.of_N (height b))%Z.

Definition cellIndex (b : CellBuffer) (x y : Z) : nat :=
  Z.to_nat (y * Z.of_N (width b) + x).

Definition readColor (arr : list Q) (i : nat) : Color :=
  color_of (take 4 (drop (4 * i) arr)).

Definition writeColor (arr : list Q) (i : nat) (c : Color) : list Q :=
  list_inserts (4 * i) (channels c) arr.

Definition space : N := 32%N.

(** Modelled from the spec: [setCellWithAlphaBlending] of §4.1 writes one
    cell, blending both colours into the cell's colours when the buffer
    respects alpha; out of bounds it does nothing.  The native code is
    missing. *)
Definition setCellWithAlphaBlending (b : CellBuffer) (x y : Z) (codepoint : N)
    (fg bg : Color) (attributes : N) : CellBuffer :=
  if inBounds b x y then
    let i := cellIndex b x y in
    let fg' := if respectAlpha b then blend fg (readColor (fgs b) i) else fg in
    let bg' := if respectAlpha b then blend bg (readColor (bgs b) i) else bg in
    {| width := width b; height := height b; respectAlpha := respectAlpha b;
       chars := <[i := codepoint]> (chars b);
       fgs := writeColor (fgs b) i fg';
       bgs := writeColor (bgs b) i bg';
       attrs := <[i := attributes]> (attrs b) |}
  else b.

(** Modelled from the spec: one cell of [drawText] (§4.1): the code
    point, the foreground and the attributes are written, the background
    only when one is given; a cell beyond the bounds is skipped.  The
    native code is missing. *)
Definition drawTextCell (b : CellBuffer) (x y : Z) (codepoint : N)
    (fg : Color) (bg : option Color) (attributes : N) : CellBuffer :=
  if inBounds b x y then
    let i := cellIndex b x y in
    {| width := width b; height := height b; respectAlpha := respectAlpha b;
       chars := <[i := codepoint]> (chars b);
       fgs := writeColor (fgs b) i fg;
       bgs := match bg with
              | Some c => writeColor (bgs b) i c
              | None => bgs b
              end;
       attrs := <[i := attributes]> (attrs b) |}
  else b.

(** Modelled from the spec: [drawText] of §4.1 writes the code points
    left to right from (x,y), one to a cell. *)
Fixpoint drawText (b : CellBuffer) (codepoints : list N) (x y : Z)
    (fg : Color) (bg : option Color) (attributes : N) : CellBuffer :=
  match codepoints with
  | [] => b
  | c :: rest =>
      drawText (drawTextCell b x y c fg bg attributes) rest (x + 1)%Z y
        fg bg attributes
  end.

(** Modelled from the spec: one cell of [fillRect] (§4.1): the background
    is set and the character reset to a space, inside the bounds only.
    The native code is missing. *)
Definition fillCell (b : CellBuffer) (color : Color) (cell : Z * Z)
    : CellBuffer :=
  let '(x, y) := cell in
  if inBounds b x y then
    let i := cellIndex b x y in
    {| width := width b; height := height b; respectAlpha := respectAlpha b;
       chars := <[i := space]> (chars b);
       fgs := fgs b;
       bgs := writeColor (bgs b) i color;
       attrs := attrs b |}
  else b.

(** The cells of a rectangle, row by row; none when [w] or [h] is not
    positive. *)
Definition rectCells (x y w h : Z) : list (Z * Z) :=
  cy ← seqZ y h; cx ← seqZ x w; [(cx, cy)].

(** Modelled from the spec: [fillRect] of §4.1. *)
Definition fillRect (b : CellBuffer) (x y w h : Z) (color : Color)
    : CellBuffer :=
  foldl (λ acc cell, fillCell acc color cell) b (rectCells x y w h).

(** Modelled from the spec: the HitGrid of §3 and §4.3, a raster holding
    one owner id for each cell position, 0 standing for "no owner"; the
    native code is missing. *)
Record HitGrid : Type := mkHitGrid {
  gridWidth : N;
  gridHeight : N;
  owners : list N
}.

Definition inGrid (g : HitGrid) (x y : Z) : bool :=
  (0 <=? x)%Z && (x <? Z.of_N (gridWidth g))%Z &&
  (0 <=? y)%Z && (y <? Z.of_N (gridHeight g))%Z.

Definition gridIndex (g : HitGrid) (x y : Z) : nat :=
  Z.to_nat (y * Z.of_N (gridWidth g) + x).

Definition setOwner (id : N) (g : HitGrid) (cell : Z * Z) : HitGrid :=
  let '(x, y) := cell in
  if inGrid g x y then
    {| gridWidth := gridWidth g; gridHeight := gridHeight g;
       owners := <[gridIndex g x y := id]> (owners g) |}
  else g.

(** Modelled from the spec: [addToHitGrid] of §4.3 overwrites the owner id
    of every covered cell. *)
Definition addToHitGrid (g : HitGrid) (x y w h : Z) (id : N) : HitGrid :=
  foldl (setOwner id) g (rectCells x y w h).

(** Modelled from the spec: [checkHit] of §4.3 returns the owner id at
    (x,y), or the sentinel 0 if there is none. *)
Definition checkHit (g : HitGrid) (x y : Z) : N :=
  if inGrid g x y then default 0%N (owners g !! gridIndex g x y) else 0%N.

(** Modelled from the spec: [clearHitGrid] of §4.3 resets every cell's
    owner id to the sentinel. *)
Definition clearHitGrid (g : HitGrid) : HitGrid :=
  {| gridWidth := gridWidth g; gridHeight := gridHeight g;
     owners := replicate (length (owners g)) 0%N |}.

(** A raster has one entry for each cell. *)
Definition gridShaped (g : HitGrid) : Prop :=
  length (owners g) = N.to_nat (gridWidth g * gridHeight g).

(** The state of the engine: the cell buffers and the hit grids of the
    renderers, by native pointer. *)
Record State : Type := mkState {
  buffers : gmap N CellBuffer;
  hitGrids : gmap N HitGrid
}.

Definition updateBuffer (f : CellBuffer → CellBuffer) (ptr : Pointer)
    (e : State) : State :=
  match buffers e !! ptr with
  | Some b => {| buffers := <[ptr := f b]> (buffers e); hitGrids := hitGrids e |}
  | None => e
  end.

Definition updateHitGrid (f : HitGrid → HitGrid) (renderer : Pointer)
    (e : State) : State :=
  match hitGrids e !! renderer with
  | Some g => {| buffers := buffers e; hitGrids := <[renderer := f g]> (hitGrids e) |}
  | None => e
  end.

End Engine.

(** ** The engine as a library of symbols *)

(** Modelled from the spec: the native [drawText] receives the text as
    UTF-8 bytes and writes "decoded Unicode codepoints"; the decoder is
    native code that is missing.  A byte that does not start a well-formed
    sequence is read as U+FFFD. *)
Definition is_continuation (b : N) : bool := (N.land b 0xC0 =? 0x80)%N.

Definition replacement : N := 0xFFFD%N.

Fixpoint utf8_decode (bytes : list N) : list N :=
  match bytes with
  | [] => []
  | b0 :: r0 =>
      if (b0 <? 0x80)%N then b0 :: utf8_decode r0
      else if (N.land b0 0xE0 =? 0xC0)%N then
        match r0 with
        | b1 :: r1 =>
            if is_continuation b1
            then N.lor (N.shiftl (N.land b0 0x1F) 6) (N.land b1 0x3F)
                   :: utf8_decode r1
            else replacement :: utf8_decode r0
        | _ => replacement :: utf8_decode r0
        end
      else if (N.land b0 0xF0 =? 0xE0)%N then
        match r0 with
        | b1 :: b2 :: r2 =>
            if is_continuation b1 && is_continuation b2
            then N.lor (N.shiftl (N.land b0 0x0F) 12)
                   (N.lor (N.shiftl (N.land b1 0x3F) 6) (N.land b2 0x3F))
                   :: utf8_decode r2
            else replacement :: utf8_decode r0
        | _ => replacement :: utf8_decode r0
        end
      else if (N.land b0 0xF8 =? 0xF0)%N then
        match r0 with
        | b1 :: b2 :: b3 :: r3 =>
            if is_continuation b1 && is_continuation b2 && is_continuation b3
            then N.lor (N.shiftl (N.land b0 0x07) 18)
                   (N.lor (N.shiftl (N.land b1 0x3F) 12)
                      (N.lor (N.shiftl (N.land b2 0x3F) 6) (N.land b3 0x3F)))
                   :: utf8_decode r3
            else replacement :: utf8_decode r0
        | _ => replacement :: utf8_decode r0
        end
      else replacement :: utf8_decode r0
  end.

(** Modelled from the spec: §4.2, the native blit (missing) copies "the
    rectangular region of source (full buffer if srcW/srcH omitted or
    zero)".  [sourceExtent requested full] is the extent it reads along one
    axis when the wrapper passes [requested] and the source buffer spans
    [full]. *)
Definition sourceExtent (requested full : N) : N :=
  if (requested =? 0)%N then full else requested.

(** A table of symbols over the engine's state whose cell-writing and
    hit-grid entries are the engine's operations; every other entry is
    that of [base], which is arbitrary. *)
Definition engineSymbols (base : Symbols Engine.State) : Symbols Engine.State :=
  {| sym_createRenderer := sym_createRenderer base;
     sym_getNextBuffer := sym_getNextBuffer base;
     sym_getCurrentBuffer := sym_getCurrentBuffer base;
     sym_createOptimizedBuffer := sym_createOptimizedBuffer base;
     sym_drawFrameBuffer := sym_drawFrameBuffer base;
     sym_getBufferWidth := sym_getBufferWidth base;
     sym_getBufferHeight := sym_getBufferHeight base;
     sym_bufferGetCharPtr := sym_bufferGetCharPtr base;
     sym_bufferGetFgPtr := sym_bufferGetFgPtr base;
     sym_bufferGetBgPtr := sym_bufferGetBgPtr base;
     sym_bufferGetAttributesPtr := sym_bufferGetAttributesPtr base;
     sym_bufferDrawText := λ buffer text len x y fg bg attributes,
       Engine.updateBuffer
         (λ b, Engine.drawText b (utf8_decode (take (N.to_nat len) text))
                 (Z.of_N x) (Z.of_N y) (Engine.color_of fg)
                 (Engine.color_of <$> bg) attributes)
         buffer;
     sym_bufferSetCellWithAlphaBlending := λ buffer x y codepoint fg bg attributes,
       Engine.updateBuffer
         (λ b, Engine.setCellWithAlphaBlending b (Z.of_N x) (Z.of_N y)
                 codepoint (Engine.color_of fg) (Engine.color_of bg) attributes)
         buffer;
     sym_bufferFillRect := λ buffer x y w h color,
       Engine.updateBuffer
         (λ b, Engine.fillRect b (Z.of_N x) (Z.of_N y) (Z.of_N w) (Z.of_N h)
                 (Engine.color_of color))
         buffer;
     sym_bufferResize := sym_bufferResize base;
     sym_bufferDrawSuperSampleBuffer := sym_bufferDrawSuperSampleBuffer base;
     sym_addToHitGrid := λ renderer x y w h id,
       Engine.updateHitGrid
         (λ g, Engine.addToHitGrid g x y (Z.of_N w) (Z.of_N h) id) renderer;
     sym_checkHit := λ renderer x y e,
       (match Engine.hitGrids e !! renderer with
        | Some g => Engine.checkHit g (Z.of_N x) (Z.of_N y)
        | None => 0%N
        end, e);
     sym_clearHitGrid := Engine.updateHitGrid Engine.clearHitGrid |}.

(** ** Vocabulary of the statements *)

(** What reaches a native parameter for an optional numeric argument. *)
Definition passedAs (arg : option N) (v : N) : Prop :=
  match arg with
  | None => v = 0%N
  | Some given => v = given
  end.

(** The first code point of a string, a space for the empty string. *)
Definition firstCodePointOrSpace (s : JSString) : N :=
  match code_points s with
  | [] => 32%N
  | c :: _ => c
  end.

(** The four array pointers of a native buffer, asked for in the order in
    which [getBuffer] asks. *)
Definition arrayPointers {St} (sym : Symbols St) (bufferPtr : Pointer) (s : St)
    : (option Pointer * option Pointer * option Pointer * option Pointer) * St :=
  let '(c, s1) := sym_bufferGetCharPtr sym bufferPtr s in
  let '(f, s2) := sym_bufferGetFgPtr sym bufferPtr s1 in
  let '(b, s3) := sym_bufferGetBgPtr sym bufferPtr s2 in
  let '(a, s4) := sym_bufferGetAttributesPtr sym bufferPtr s3 in
  ((c, f, b, a), s4).

Definition anyNull
    (ps : option Pointer * option Pointer * option Pointer * option Pointer)
    : bool :=
  let '(c, f, b, a) := ps in falsy c || falsy f || falsy b || falsy a.

(** The views of a buffer of [w] by [h] cells: one [uint32] and one
    [uint8] for each cell, four [float32] for each colour of a cell. *)
Definition viewsMatch (bs : Buffers) (w h : N) : Prop :=
  ta_bytesPerElement (char bs) = 4%N ∧ ta_length (char bs) = (w * h)%N ∧
  ta_bytesPerElement (fg bs) = 4%N ∧ ta_length (fg bs) = (4 * (w * h))%N ∧
  ta_bytesPerElement (bg bs) = 4%N ∧ ta_length (bg bs) = (4 * (w * h))%N ∧
  ta_bytesPerElement (attributes bs) = 1%N ∧
  ta_length (attributes bs) = (w * h)%N.

(** The views start where the native pointers point. *)
Definition viewsAt (bs : Buffers)
    (ps : option Pointer * option Pointer * option Pointer * option Pointer)
    : Prop :=
  let '(c, f, b, a) := ps in
  ab_address (ta_buffer (char bs)) = address c ∧
  ab_address (ta_buffer (fg bs)) = address f ∧
  ab_address (ta_buffer (bg bs)) = address b ∧
  ab_address (ta_buffer (attributes bs)) = address a.

(** Whether a call raised an error. *)
Definition raises {St A} (r : Result A * St) : Prop :=
  is_ok (fst r) = false.



(** The sentence "a buffer returned by createOptimizedBuffer with
    native-reported width w and height h has views of the lengths of w by
    h cells", at one call: [w] and [h] are what the engine reports for
    the returned buffer. *)
Definition createdViewsMatchReported {St} (bun : Runtime)
    (this : FFIRenderLib St) (width height : N) (respectAlpha : option bool)
    (s : St) : Prop :=
  ∀ b s' w s2 h s3,
    createOptimizedBuffer bun this width height respectAlpha s = (Ok b, s') →
    sym_getBufferWidth (opentui this) (ob_ptr b) s' = (w, s2) →
    sym_getBufferHeight (opentui this) (ob_ptr b) s2 = (h, s3) →
    viewsMatch (ob_buffers b) w h.

(** Whether the run time maps the range of [n] bytes at the pointer [p]:
    the range is not empty and is not refused. *)
Definition mapped (bun : Runtime) (p : option Pointer) (n : N) : bool :=
  negb (n =? 0)%N
  && match refusal bun (address p) 0 n with
     | None => true
     | Some _ => false
     end.

(** Whether the run time maps the four arrays of a buffer of [size]
    cells: 4 bytes for a character, 16 for a colour, 1 for the
    attributes. *)
Definition allMapped (bun : Runtime)
    (ps : option Pointer * option Pointer * option Pointer * option Pointer)
    (size : N) : bool :=
  let '(c, f, b, a) := ps in
  mapped bun c (4 * size) && mapped bun f (16 * size)
  && mapped bun b (16 * size) && mapped bun a size.

(** An error that comes from [toArrayBuffer]. *)
Definition runtimeError (bun : Runtime) (msg : string) : Prop :=
  msg = "length must be > 0"%string
  ∨ ∃ ptr byteOffset byteLength,
      refusal bun ptr byteOffset byteLength = Some msg.

(** The error of [toArrayBuffer] for a range that is not mapped. *)
Definition rangeError (bun : Runtime) (p : option Pointer) (n : N) : string :=
  if (n =? 0)%N then "length must be > 0"%string
  else default ""%string (refusal bun (address p) 0 n).

(** A run time that maps every range of at most 2^32 bytes. *)
Definition sampleRuntime : Runtime :=
  {| refusal := λ _ _ byteLength,
       if (2 ^ 32 <? byteLength)%N then Some "cannot map the range"%string
       else None |}.

(** A native library without state that gives the same answers to every
    call: [handle] for a renderer or a buffer, [dims] for the size of a
    buffer, [arrays] for its four array pointers. *)
Definition fixedSymbols (handle : option Pointer) (dims : N * N)
    (arrays : option Pointer * option Pointer * option Pointer * option Pointer)
    : Symbols unit :=
  let '(c, f, b, a) := arrays in
  {| sym_createRenderer := λ _ _ s, (handle, s);
     sym_getNextBuffer := λ _ s, (handle, s);
     sym_getCurrentBuffer := λ _ s, (handle, s);
     sym_createOptimizedBuffer := λ _ _ _ s, (handle, s);
     sym_drawFrameBuffer := λ _ _ _ _ _ _ _ _ s, s;
     sym_getBufferWidth := λ _ s, (fst dims, s);
     sym_getBufferHeight := λ _ s, (snd dims, s);
     sym_bufferGetCharPtr := λ _ s, (c, s);
     sym_bufferGetFgPtr := λ _ s, (f, s);
     sym_bufferGetBgPtr := λ _ s, (b, s);
     sym_bufferGetAttributesPtr := λ _ s, (a, s);
     sym_bufferDrawText := λ _ _ _ _ _ _ _ _ s, s;
     sym_bufferSetCellWithAlphaBlending := λ _ _ _ _ _ _ _ s, s;
     sym_bufferFillRect := λ _ _ _ _ _ _ s, s;
     sym_bufferResize := λ _ _ _ s, s;
     sym_bufferDrawSuperSampleBuffer := λ _ _ _ _ _ _ _ s, s;
     sym_addToHitGrid := λ _ _ _ _ _ _ s, s;
     sym_checkHit := λ _ _ _ s, (0%N, s);
     sym_clearHitGrid := λ _ s, s |}.

(** A library whose buffers are 3 by 2 cells with arrays at four
    addresses, and one that hands out buffers but no character array. *)
Definition soundLibrary : FFIRenderLib unit :=
  {| self := 0;
     opentui := fixedSymbols (Some 7%N) (3%N, 2%N)
                  (Some 100%N, Some 200%N, Some 300%N, Some 400%N) |}.

Definition noCharArrayLibrary : FFIRenderLib unit :=
  {| self := 0;
     opentui := fixedSymbols (Some 7%N) (3%N, 2%N)
                  (None, Some 200%N, Some 300%N, Some 400%N) |}.

(** The path most recently set by a sequence of calls, [current] when it
    sets none. *)
Fixpoint lastPathFrom (current : option string) (calls : list ModuleCall)
    : option string :=
  match calls with
  | [] => current
  | CallSetRenderLibPath p :: rest => lastPathFrom (Some p) rest
  | CallResolveRenderLib :: rest => lastPathFrom current rest
  end.

Definition lastPath (calls : list ModuleCall) : option string :=
  lastPathFrom None calls.

(** The sentence "calling setRenderLibPath after the first resolveRenderLib
    call has no effect on the library returned": the call that follows the
    first one gives the same whether or not [libPath] was set in
    between. *)
Definition laterPathIgnored {St} (host : Host St) (ms : ModuleState)
    (libPath : string) : Prop :=
  let afterFirst := snd (resolveRenderLib host ms) in
  fst (resolveRenderLib host (snd (setRenderLibPath libPath afterFirst)))
  = fst (resolveRenderLib host afterFirst).

(** A host whose package has no library for the platform, and on which
    only [/opt/libopentui.so] can be opened; and a host with the packaged
    library in place, on which every path can be opened. *)
Definition bareHost : Host unit :=
  {| platform := "linux"; arch := "x64"; suffix := "so";
     packageName := "@opentui/core";
     require_resolve := λ _, None;
     existsSync := λ _, false;
     dlopen := λ path,
       if String.eqb path "/opt/libopentui.so"
       then Ok (fixedSymbols (Some 7%N) (3%N, 2%N)
                  (Some 100%N, Some 200%N, Some 300%N, Some 400%N))
       else Throw "dlopen failed" |}.

Definition packagedHost : Host unit :=
  {| platform := "linux"; arch := "x64"; suffix := "so";
     packageName := "@opentui/core";
     require_resolve := λ request, Some ("/node_modules/" +:+ request);
     existsSync := λ _, true;
     dlopen := λ path,
       Ok (fixedSymbols (Some (N.of_nat (String.length path))) (3%N, 2%N)
             (Some 100%N, Some 200%N, Some 300%N, Some 400%N)) |}.

(** Whether the rectangle at (x,y) of [w] by [h] cells covers (px,py). *)
Definition covers (x y w h px py : Z) : bool :=
  (x <=? px)%Z && (px <? x + w)%Z && (y <=? py)%Z && (py <? y + h)%Z.

(** The instance of the wrapper that runs on the engine. *)
Definition onEngine (base : Symbols Engine.State) : FFIRenderLib Engine.State :=
  {| self := 0; opentui := engineSymbols base |}.

(** A renderer of 16 by 12 cells with an empty hit grid, next to a buffer
    of 3 by 2 cells that does not respect alpha; the remaining symbols
    are those of a library that has none of its own. *)
Definition blankBuffer : Engine.CellBuffer :=
  {| Engine.width := 3; Engine.height := 2; Engine.respectAlpha := false;
     Engine.chars := replicate 6 32%N;
     Engine.fgs := replicate 24 1%Q;
     Engine.bgs := replicate 24 0%Q;
     Engine.attrs := replicate 6 0%N |}.

Definition blankGrid : Engine.HitGrid :=
  {| Engine.gridWidth := 16; Engine.gridHeight := 12;
     Engine.owners := replicate 192 0%N |}.

Definition sampleEngine : Engine.State :=
  {| Engine.buffers := {[ 7%N := blankBuffer ]};
     Engine.hitGrids := {[ 1%N := blankGrid ]} |}.

Definition noSymbols : Symbols Engine.State :=
  {| sym_createRenderer := λ _ _ s, (None, s);
     sym_getNextBuffer := λ _ s, (None, s);
     sym_getCurrentBuffer := λ _ s, (None, s);
     sym_createOptimizedBuffer := λ _ _ _ s, (None, s);
     sym_drawFrameBuffer := λ _ _ _ _ _ _ _ _ s, s;
     sym_getBufferWidth := λ _ s, (0%N, s);
     sym_getBufferHeight := λ _ s, (0%N, s);
     sym_bufferGetCharPtr := λ _ s, (None, s);
     sym_bufferGetFgPtr := λ _ s, (None, s);
     sym_bufferGetBgPtr := λ _ s, (None, s);
     sym_bufferGetAttributesPtr := λ _ s, (None, s);
     sym_bufferDrawText := λ _ _ _ _ _ _ _ _ s, s;
     sym_bufferSetCellWithAlphaBlending := λ _ _ _ _ _ _ _ s, s;
     sym_bufferFillRect := λ _ _ _ _ _ _ s, s;
     sym_bufferResize := λ _ _ _ s, s;
     sym_bufferDrawSuperSampleBuffer := λ _ _ _ _ _ _ _ s, s;
     sym_addToHitGrid := λ _ _ _ _ _ _ s, s;
     sym_checkHit := λ _ _ _ s, (0%N, s);
     sym_clearHitGrid := λ _ s, s |}.

(** A library whose state is the log of the native calls made so far:
    the name of the symbol and the numbers it was given (text bytes after
    their length; colours are left out). *)
Definition loggingSymbols : Symbols (list (string * list Z)) :=
  let log (name : string) (args : list Z) (s : list (string * list Z)) :=
    s ++ [(name, args)] in
  {| sym_createRenderer := λ w h s,
       (None, log "createRenderer" [Z.of_N w; Z.of_N h] s);
     sym_getNextBuffer := λ r s, (None, log "getNextBuffer" [Z.of_N r] s);
     sym_getCurrentBuffer := λ r s, (None, log "getCurrentBuffer" [Z.of_N r] s);
     sym_createOptimizedBuffer := λ w h _ s,
       (None, log "createOptimizedBuffer" [Z.of_N w; Z.of_N h] s);
     sym_drawFrameBuffer := λ target destX destY source srcX srcY srcW srcH,
       log "drawFrameBuffer"
         [Z.of_N target; destX; destY; Z.of_N source;
          Z.of_N srcX; Z.of_N srcY; Z.of_N srcW; Z.of_N srcH];
     sym_getBufferWidth := λ b s, (0%N, log "getBufferWidth" [Z.of_N b] s);
     sym_getBufferHeight := λ b s, (0%N, log "getBufferHeight" [Z.of_N b] s);
     sym_bufferGetCharPtr := λ b s, (None, log "bufferGetCharPtr" [Z.of_N b] s);
     sym_bufferGetFgPtr := λ b s, (None, log "bufferGetFgPtr" [Z.of_N b] s);
     sym_bufferGetBgPtr := λ b s, (None, log "bufferGetBgPtr" [Z.of_N b] s);
     sym_bufferGetAttributesPtr := λ b s,
       (None, log "bufferGetAttributesPtr" [Z.of_N b] s);
     sym_bufferDrawText := λ b text len x y _ _ attrs,
       log "bufferDrawText"
         ([Z.of_N b; Z.of_N x; Z.of_N y; Z.of_N attrs; Z.of_N len]
            ++ List.map Z.of_N text);
     sym_bufferSetCellWithAlphaBlending := λ b x y codepoint _ _ attrs,
       log "bufferSetCellWithAlphaBlending"
         [Z.of_N b; Z.of_N x; Z.of_N y; Z.of_N codepoint; Z.of_N attrs];
     sym_bufferFillRect := λ b x y w h _,
       log "bufferFillRect" [Z.of_N b; Z.of_N x; Z.of_N y; Z.of_N w; Z.of_N h];
     sym_bufferResize := λ b w h,
       log "bufferResize" [Z.of_N b; Z.of_N w; Z.of_N h];
     sym_bufferDrawSuperSampleBuffer := λ b x y data len formatId stride,
       log "bufferDrawSuperSampleBuffer"
         [Z.of_N b; Z.of_N x; Z.of_N y; Z.of_N data; Z.of_N len;
          Z.of_N formatId; Z.of_N stride];
     sym_addToHitGrid := λ r x y w h id,
       log "addToHitGrid" [Z.of_N r; x; y; Z.of_N w; Z.of_N h; Z.of_N id];
     sym_checkHit := λ r x y s,
       (0%N, log "checkHit" [Z.of_N r; Z.of_N x; Z.of_N y] s);
     sym_clearHitGrid := λ r, log "clearHitGrid" [Z.of_N r] |}.

Definition loggingLibrary : FFIRenderLib (list (string * list Z)) :=
  {| self := 0; opentui := loggingSymbols |}.

(** ** Further methods of [FFIRenderLib] *)

Section PointerGetters.

Context {St : Type} (this : FFIRenderLib St).

Let symbols : Symbols St := opentui this.

Definition bufferGetCharPtr (buffer : Pointer) : M St Pointer :=
  ptr ← call (sym_bufferGetCharPtr symbols buffer);
  if falsy ptr then throw "Failed to get char pointer"
  else mret (address ptr).

Definition bufferGetFgPtr (buffer : Pointer) : M St Pointer :=
  ptr ← call (sym_bufferGetFgPtr symbols buffer);
  if falsy ptr then throw "Failed to get fg pointer"
  else mret (address ptr).

Definition bufferGetBgPtr (buffer : Pointer) : M St Pointer :=
  ptr ← call (sym_bufferGetBgPtr symbols buffer);
  if falsy ptr then throw "Failed to get bg pointer"
  else mret (address ptr).

Definition bufferGetAttributesPtr (buffer : Pointer) : M St Pointer :=
  ptr ← call (sym_bufferGetAttributesPtr symbols buffer);
  if falsy ptr then throw "Failed to get attributes pointer"
  else mret (address ptr).

End PointerGetters.

(** The symbol [setCursorStyle] of the table, with C types
    [ptr, u32, bool]: the bytes behind the pointer, a length, the blink
    flag. *)
Record CursorSymbols (St : Type) : Type := mkCursorSymbols {
  sym_setCursorStyle : list N → N → bool → St → St
}.

Arguments sym_setCursorStyle {St} _.

(** [setCursorStyle]: the style is a string of the type [CursorStyle] of
    [./types]; the length passed is [style.length], the number of UTF-16
    code units. *)
Definition setCursorStyle {St} (cursor : CursorSymbols St) (style : JSString)
    (blinking : bool) : M St unit :=
  let stylePtr := encode style in
  exec (sym_setCursorStyle cursor stylePtr (N.of_nat (length style)) blinking).

(** A library that logs the call of [setCursorStyle]: the length, then the
    bytes. *)
Definition loggingCursor : CursorSymbols (list (string * list Z)) :=
  {| sym_setCursorStyle := λ bytes len _ s,
       s ++ [("setCursorStyle"%string, Z.of_N len :: List.map Z.of_N bytes)] |}.

(** The four arrays of a buffer, with the getter, the symbol and the
    message of each. *)
Inductive ArrayKind : Type :=
| CharArray
| FgArray
| BgArray
| AttributesArray.

Definition getterOf {St} (this : FFIRenderLib St) (kind : ArrayKind)
    : Pointer → M St Pointer :=
  match kind with
  | CharArray => bufferGetCharPtr this
  | FgArray => bufferGetFgPtr this
  | BgArray => bufferGetBgPtr this
  | AttributesArray => bufferGetAttributesPtr this
  end.

Definition symbolOf {St} (sym : Symbols St) (kind : ArrayKind)
    : Pointer → St → option Pointer * St :=
  match kind with
  | CharArray => sym_bufferGetCharPtr sym
  | FgArray => sym_bufferGetFgPtr sym
  | BgArray => sym_bufferGetBgPtr sym
  | AttributesArray => sym_bufferGetAttributesPtr sym
  end.

Definition getterFailure (kind : ArrayKind) : string :=
  match kind with
  | CharArray => "Failed to get char pointer"
  | FgArray => "Failed to get fg pointer"
  | BgArray => "Failed to get bg pointer"
  | AttributesArray => "Failed to get attributes pointer"
  end.

(** Whether the code unit [hi] and what follows it form a surrogate
    pair. *)
Definition leadsPair (hi : N) (rest : JSString) : bool :=
  is_high_surrogate hi
  && match rest with
     | lo :: _ => is_low_surrogate lo
     | [] => false
     end.

Definition is_surrogate (c : N) : bool :=
  is_high_surrogate c || is_low_surrogate c.

(** *** UTF-8 as the Unicode standard defines it

    What "encoded as UTF-8" asks of the bytes is written here from the
    standard, not from [encode]: the text as scalar values, and the byte
    sequences of Table 3-7 ("Well-Formed UTF-8 Byte Sequences"). *)

(** What a string says: Unicode scalar values, among which a surrogate
    code unit that belongs to no pair may stand. *)
Inductive TextItem : Type :=
| ScalarValue (c : N)
| LoneSurrogate (u : N).

(** The UTF-16 code units of a text. *)
Fixpoint textUnits (items : list TextItem) : JSString :=
  match items with
  | [] => []
  | ScalarValue c :: rest => utf16_of_code_point c ++ textUnits rest
  | LoneSurrogate u :: rest => u :: textUnits rest
  end.

(** The scalar values an encoder has to write for it: U+FFFD stands for a
    surrogate without its partner. *)
Definition textValues (items : list TextItem) : list N :=
  List.map (λ item, match item with
                    | ScalarValue c => c
                    | LoneSurrogate _ => 0xFFFD%N
                    end) items.

(** A scalar value is at most U+10FFFF and no surrogate; a lone surrogate
    is a surrogate, and a high one is not followed by a lone low one (the
    two would be a pair). *)
Fixpoint wellFormedText (items : list TextItem) : bool :=
  match items with
  | [] => true
  | ScalarValue c :: rest =>
      (c <? 0x110000)%N && negb (is_surrogate c) && wellFormedText rest
  | LoneSurrogate u :: rest =>
      is_surrogate u
      && negb (is_high_surrogate u
               && match rest with
                  | LoneSurrogate lo :: _ => is_low_surrogate lo
                  | _ => false
                  end)
      && wellFormedText rest
  end.

Definition in_range (lo hi b : N) : bool := ((lo <=? b) && (b <=? hi))%N.

(** The second byte of a sequence is a trailing byte 80..BF, but for the
    lead bytes E0, ED, F0 and F4, which exclude overlong forms, surrogates
    and values above U+10FFFF. *)
Definition second_byte_range (b0 : N) : N * N :=
  if (b0 =? 0xE0)%N then (0xA0%N, 0xBF%N)
  else if (b0 =? 0xED)%N then (0x80%N, 0x9F%N)
  else if (b0 =? 0xF0)%N then (0x90%N, 0xBF%N)
  else if (b0 =? 0xF4)%N then (0x80%N, 0x8F%N)
  else (0x80%N, 0xBF%N).

Definition is_second_byte (b0 b1 : N) : bool :=
  in_range (fst (second_byte_range b0)) (snd (second_byte_range b0)) b1.

Definition is_trailing_byte (b : N) : bool := in_range 0x80 0xBF b.

Fixpoint well_formed_utf8 (bytes : list N) : bool :=
  match bytes with
  | [] => true
  | b0 :: r0 =>
      if (b0 <=? 0x7F)%N then well_formed_utf8 r0
      else if in_range 0xC2 0xDF b0 then
        match r0 with
        | b1 :: r1 => is_trailing_byte b1 && well_formed_utf8 r1
        | _ => false
        end
      else if in_range 0xE0 0xEF b0 then
        match r0 with
        | b1 :: b2 :: r2 =>
            is_second_byte b0 b1 && is_trailing_byte b2
            && well_formed_utf8 r2
        | _ => false
        end
      else if in_range 0xF0 0xF4 b0 then
        match r0 with
        | b1 :: b2 :: b3 :: r3 =>
            is_second_byte b0 b1 && is_trailing_byte b2
            && is_trailing_byte b3 && well_formed_utf8 r3
        | _ => false
        end
      else false
  end.

(** The module request that [findLibrary] resolves, for a library
    name. *)
Definition libraryRequest {St} (host : Host St) (libraryName : string)
    : string :=
  packageName host +:+ "-" +:+ platform host +:+ "-" +:+ arch host
    +:+ "/" +:+ libraryName +:+ "." +:+ suffix host.

(** * Properties *)

(** ** Forwarding of arguments *)

Lemma passedAs_nullish (arg : option N) : passedAs arg (arg ?? 0%N).
Proof. by destruct arg. Qed.

Lemma sourceExtent_full (arg : option N) (full : N) :
  arg = None ∨ arg = Some 0%N → sourceExtent (arg ?? 0%N) full = full.
Proof. by intros [-> | ->]. Qed.

(** C1.  Whatever the native library is, [drawFrameBuffer] makes exactly
    one native call, [drawFrameBuffer], and returns without an error; the
    target pointer, destX, destY and the source pointer are the caller's,
    and each of sourceX, sourceY, sourceWidth, sourceHeight arrives as 0
    when it is omitted and as given otherwise.  With the engine's rule for
    the source region, a width or height that is omitted or zero makes the
    blit read the full extent of the source. *)
Theorem drawFrameBuffer_omitted_as_zero {St} (this : FFIRenderLib St)
    (targetBufferPtr : Pointer) (destX destY : Z) (bufferPtr : Pointer)
    (sourceX sourceY sourceWidth sourceHeight : option N) (s : St) :
  ∃ srcX srcY srcWidth srcHeight : N,
    drawFrameBuffer this targetBufferPtr destX destY bufferPtr
        sourceX sourceY sourceWidth sourceHeight s
      = (Ok tt, sym_drawFrameBuffer (opentui this) targetBufferPtr destX destY
                  bufferPtr srcX srcY srcWidth srcHeight s)
    ∧ passedAs sourceX srcX ∧ passedAs sourceY srcY
    ∧ passedAs sourceWidth srcWidth ∧ passedAs sourceHeight srcHeight
    ∧ (∀ full, sourceWidth = None ∨ sourceWidth = Some 0%N →
         sourceExtent srcWidth full = full)
    ∧ (∀ full, sourceHeight = None ∨ sourceHeight = Some 0%N →
         sourceExtent srcHeight full = full).
Proof.
  exists (sourceX ?? 0%N), (sourceY ?? 0%N),
    (sourceWidth ?? 0%N), (sourceHeight ?? 0%N).
  split; [reflexivity |].
  repeat split; auto using passedAs_nullish, sourceExtent_full.
Qed.

(** C1 at a call that gives the source position but neither width nor
    height: the native call gets 4, 5, 0, 0, and a buffer of 30 columns is
    read in full. *)
Lemma drawFrameBuffer_omitted_as_zero_witness :
  drawFrameBuffer loggingLibrary 7%N 1 (-2) 8%N (Some 4%N) (Some 5%N) None None []
  = (Ok tt, [("drawFrameBuffer"%string, [7; 1; -2; 8; 4; 5; 0; 0]%Z)])
  ∧ sourceExtent 0 30 = 30%N.
Proof.
  destruct (drawFrameBuffer_omitted_as_zero loggingLibrary 7%N 1 (-2) 8%N
              (Some 4%N) (Some 5%N) None None [])
    as (srcX & srcY & srcW & srcH & Hcall & Hx & Hy & Hw & Hh & Hfull & _).
  cbn in Hx, Hy, Hw, Hh. subst srcX srcY srcW srcH.
  split; [exact Hcall | exact (Hfull 30%N (or_introl eq_refl))].
Defined.

Lemma formatId_bgra (format : string) :
  (if String.eqb format "bgra8unorm" then 0%N else 1%N) = 0%N
  ↔ format = "bgra8unorm"%string.
Proof.
  destruct (String.eqb_spec format "bgra8unorm"); split; intros; done.
Qed.

(** C2.  [bufferDrawSuperSampleBuffer] makes one native call and returns
    without an error; the format tag arrives as 0 exactly when it is
    "bgra8unorm", and as 1 for "rgba8unorm"; the buffer pointer, x, y, the
    pixel-data pointer, its length and alignedBytesPerRow are the
    caller's. *)
Theorem bufferDrawSuperSampleBuffer_format_id {St} (this : FFIRenderLib St)
    (buffer : Pointer) (x y : N) (pixelDataPtr : Pointer)
    (pixelDataLength : N) (format : string) (alignedBytesPerRow : N) (s : St) :
  ∃ formatId : N,
    bufferDrawSuperSampleBuffer this buffer x y pixelDataPtr pixelDataLength
        format alignedBytesPerRow s
      = (Ok tt, sym_bufferDrawSuperSampleBuffer (opentui this) buffer x y
                  pixelDataPtr pixelDataLength formatId alignedBytesPerRow s)
    ∧ (formatId = 0%N ↔ format = "bgra8unorm"%string)
    ∧ (format = "rgba8unorm"%string → formatId = 1%N)
    ∧ (formatId = 0%N ∨ formatId = 1%N).
Proof.
  exists (if String.eqb format "bgra8unorm" then 0%N else 1%N).
  split; [reflexivity |].
  split; [apply formatId_bgra |].
  split; [by intros -> |].
  destruct (String.eqb format "bgra8unorm"); auto.
Qed.

(** C2 at the tag "rgba8unorm": the native call gets 1. *)
Lemma bufferDrawSuperSampleBuffer_format_id_witness :
  bufferDrawSuperSampleBuffer loggingLibrary 7%N 2 3 9%N 64 "rgba8unorm" 16 []
  = (Ok tt, [("bufferDrawSuperSampleBuffer"%string, [7; 2; 3; 9; 64; 1; 16]%Z)]).
Proof.
  destruct (bufferDrawSuperSampleBuffer_format_id loggingLibrary 7%N 2 3 9%N 64
              "rgba8unorm" 16 [])
    as (formatId & Hcall & _ & Hrgba & _).
  rewrite (Hrgba eq_refl) in Hcall. exact Hcall.
Defined.

(** ** Code points *)

Lemma codePointAt0_code_points (s : JSString) :
  codePointAt0 s = head (code_points s).
Proof.
  destruct s as [| hi rest]; [done |]. simpl.
  destruct (is_high_surrogate hi); [| done].
  destruct rest as [| lo rest]; [done |].
  by destruct (is_low_surrogate lo).
Qed.

Lemma codePointAt0_space : codePointAt0 (js " ") = Some 32%N.
Proof. reflexivity. Qed.

Lemma code_points_nil (s : JSString) : code_points s = [] ↔ s = [].
Proof.
  split; [| by intros ->].
  destruct s as [| hi rest]; [done |]. simpl.
  destruct (is_high_surrogate hi); [| done].
  destruct rest as [| lo rest]; [done |].
  by destruct (is_low_surrogate lo).
Qed.

Lemma high_surrogate_of_pair (c : N) :
  (0x10000 <= c)%N → (c < 0x110000)%N →
  is_high_surrogate (0xD800 + (c - 0x10000) / 0x400)%N = true.
Proof.
  intros Hlo Hhi. unfold is_high_surrogate.
  assert (Hq : ((c - 0x10000) / 0x400 < 0x400)%N)
    by (apply N.Div0.div_lt_upper_bound; lia).
  revert Hq. generalize ((c - 0x10000) / 0x400)%N as q. intros q Hq.
  apply andb_true_iff; split; apply N.leb_le; lia.
Qed.

Lemma low_surrogate_of_pair (c : N) :
  is_low_surrogate (0xDC00 + (c - 0x10000) mod 0x400)%N = true.
Proof.
  unfold is_low_surrogate.
  assert (Hr : ((c - 0x10000) mod 0x400 < 0x400)%N) by (apply N.mod_lt; lia).
  revert Hr. generalize ((c - 0x10000) mod 0x400)%N as r. intros r Hr.
  apply andb_true_iff; split; apply N.leb_le; lia.
Qed.

Lemma combine_surrogates_of_pair (c : N) :
  (0x10000 <= c)%N →
  combine_surrogates (0xD800 + (c - 0x10000) / 0x400)
    (0xDC00 + (c - 0x10000) mod 0x400) = c.
Proof.
  intros Hlo. unfold combine_surrogates.
  assert (Hdm : (c = 0x10000 + (0x400 * ((c - 0x10000) / 0x400)
                               + (c - 0x10000) mod 0x400))%N).
  { rewrite <- N.div_mod by done. lia. }
  revert Hdm. generalize ((c - 0x10000) / 0x400)%N as q.
  generalize ((c - 0x10000) mod 0x400)%N as r. intros r q Hdm. lia.
Qed.

(** A string that starts with the UTF-16 form of [c] has [c] as its first
    code point, whatever follows. *)
Lemma codePointAt0_utf16 (c : N) (rest : JSString) :
  (c < 0x110000)%N → is_high_surrogate c = false →
  codePointAt0 (utf16_of_code_point c ++ rest) = Some c.
Proof.
  intros Hmax Hhi. unfold utf16_of_code_point.
  destruct (N.ltb_spec c 0x10000) as [Hbmp | Hsup]; simpl.
  - by rewrite Hhi.
  - rewrite high_surrogate_of_pair, low_surrogate_of_pair by lia.
    by rewrite combine_surrogates_of_pair.
Qed.

(** C9.  [bufferSetCellWithAlphaBlending] makes one native call and
    returns without an error.  The code point it passes is the first code
    point of [char], and 32 (a space) when [char] is empty; it is the same
    for two strings that start with the same code point, and it is [c] for
    every string that starts with the UTF-16 form of [c]. *)
Theorem bufferSetCell_first_code_point {St} (this : FFIRenderLib St)
    (buffer : Pointer) (x y : N) (char : JSString) (color bgColor : RGBA)
    (attributes : option N) (s : St) :
  ∃ codepoint : N,
    bufferSetCellWithAlphaBlending this buffer x y char color bgColor
        attributes s
      = (Ok tt, sym_bufferSetCellWithAlphaBlending (opentui this) buffer x y
                  codepoint (RGBA.buffer color) (RGBA.buffer bgColor)
                  (attributes ?? 0%N) s)
    ∧ codepoint = firstCodePointOrSpace char
    ∧ (char = [] → codepoint = 32%N)
    ∧ (∀ c rest, code_points char = c :: rest → codepoint = c)
    ∧ (∀ c rest, (c < 0x110000)%N → is_high_surrogate c = false →
         char = utf16_of_code_point c ++ rest → codepoint = c).
Proof.
  exists (firstCodePointOrSpace char).
  assert (Hcp : codePointAt0 char ?? (codePointAt0 (js " ") ?? 0%N)
                = firstCodePointOrSpace char).
  { rewrite codePointAt0_code_points. unfold firstCodePointOrSpace.
    by destruct (code_points char). }
  split.
  { unfold bufferSetCellWithAlphaBlending. cbv zeta. by rewrite Hcp. }
  split; [done |].
  split; [by intros -> |].
  split.
  { intros c rest Hc. unfold firstCodePointOrSpace. by rewrite Hc. }
  intros c rest Hmax Hhi ->.
  pose proof (codePointAt0_utf16 c rest Hmax Hhi) as H.
  rewrite codePointAt0_code_points in H. unfold firstCodePointOrSpace.
  by destruct (code_points (utf16_of_code_point c ++ rest)); simplify_eq/=.
Qed.

(** C9 at a string of U+1F600 followed by "ab": the native call gets
    128512. *)
Lemma bufferSetCell_first_code_point_witness :
  bufferSetCellWithAlphaBlending loggingLibrary 7%N 2 3
    (utf16_of_code_point 0x1F600 ++ js "ab")
    (RGBA.mk [1%Q; 1%Q; 1%Q; 1%Q]) (RGBA.mk [0%Q; 0%Q; 0%Q; 1%Q]) None []
  = (Ok tt, [("bufferSetCellWithAlphaBlending"%string, [7; 2; 3; 128512; 0]%Z)]).
Proof.
  destruct (bufferSetCell_first_code_point loggingLibrary 7%N 2 3
              (utf16_of_code_point 0x1F600 ++ js "ab")
              (RGBA.mk [1%Q; 1%Q; 1%Q; 1%Q]) (RGBA.mk [0%Q; 0%Q; 0%Q; 1%Q])
              None [])
    as (codepoint & Hcall & _ & _ & _ & Hfirst).
  rewrite (Hfirst 0x1F600%N (js "ab") eq_refl eq_refl eq_refl) in Hcall.
  exact Hcall.
Defined.

(** ** Views over the native arrays *)

Ltac unfold_M :=
  cbv [mbind mret M_bind M_ret JS.bind JS.ret call exec throw of_result].

Lemma newTypedArray_whole (bytesPerElement addr n : N) :
  bytesPerElement ≠ 0%N →
  newTypedArray bytesPerElement
    {| ab_address := addr; ab_byteLength := n * bytesPerElement |}
  = Ok {| ta_buffer := {| ab_address := addr;
                          ab_byteLength := n * bytesPerElement |};
          ta_bytesPerElement := bytesPerElement;
          ta_length := n |}.
Proof.
  intros Hne. unfold newTypedArray. cbn [ab_byteLength].
  rewrite N.Div0.mod_mul, N.eqb_refl, N.div_mul by done. reflexivity.
Qed.

Lemma newUint8Array_whole (addr n : N) :
  newUint8Array {| ab_address := addr; ab_byteLength := n |}
  = Ok {| ta_buffer := {| ab_address := addr; ab_byteLength := n |};
          ta_bytesPerElement := 1;
          ta_length := n |}.
Proof.
  unfold newUint8Array. rewrite <- (N.mul_1_r n) at 1.
  rewrite newTypedArray_whole by done. by rewrite N.mul_1_r.
Qed.

(** [toArrayBuffer] returns the range exactly when the run time maps
    it. *)
Lemma toArrayBuffer_mapped (bun : Runtime) (p : option Pointer) (n : N) :
  toArrayBuffer bun (address p) 0 n
  = if mapped bun p n
    then Ok {| ab_address := address p; ab_byteLength := n |}
    else Throw (rangeError bun p n).
Proof.
  unfold toArrayBuffer, mapped, rangeError.
  destruct (n =? 0)%N; [done |]. cbn [negb andb].
  destruct (refusal bun (address p) 0 n); [done |].
  by rewrite N.add_0_r.
Qed.

Lemma rangeError_runtime (bun : Runtime) (p : option Pointer) (n : N) :
  mapped bun p n = false → runtimeError bun (rangeError bun p n).
Proof.
  unfold mapped, rangeError, runtimeError.
  destruct (n =? 0)%N; [by left |]. cbn [negb andb].
  destruct (refusal bun (address p) 0 n) as [msg |] eqn:Hmsg; [| done].
  intros _. right. by exists (address p), 0%N, n.
Qed.



(** [getBuffer] asks for the four pointers and throws when one of them is
    null.  Otherwise it maps the four arrays, in the order char, fg, bg,
    attributes: when the run time maps them all it returns four views that
    start at the pointers and hold [size], [4*size], [4*size] and [size]
    elements; when it does not, the error of [toArrayBuffer] is raised. *)
Lemma getBuffer_outcome {St} (bun : Runtime) (this : FFIRenderLib St)
    (bufferPtr : Pointer) (w h : N) (s : St) :
  let '(ps, s') := arrayPointers (opentui this) bufferPtr s in
  if anyNull ps
  then getBuffer bun this bufferPtr (w * h) s
       = (Throw "Failed to get buffer pointers", s')
  else if allMapped bun ps (w * h)
  then ∃ bs, getBuffer bun this bufferPtr (w * h) s = (Ok bs, s')
             ∧ viewsMatch bs w h ∧ viewsAt bs ps
  else ∃ msg, getBuffer bun this bufferPtr (w * h) s = (Throw msg, s')
              ∧ runtimeError bun msg.
Proof.
  unfold arrayPointers, getBuffer. unfold_M. cbv zeta.
  destruct (sym_bufferGetCharPtr _ _ _) as [c s1].
  destruct (sym_bufferGetFgPtr _ _ _) as [f s2].
  destruct (sym_bufferGetBgPtr _ _ _) as [b s3].
  destruct (sym_bufferGetAttributesPtr _ _ _) as [a s4].
  cbn [anyNull allMapped].
  destruct (falsy c || falsy f || falsy b || falsy a); [done |].
  rewrite !toArrayBuffer_mapped.
  replace (w * h * 4 * 4)%N with (16 * (w * h))%N by lia.
  replace (w * h * 4)%N with (4 * (w * h))%N by lia.
  destruct (mapped bun c (4 * (w * h))) eqn:Hc; cbn [andb];
    [| eexists; split; [reflexivity | by apply rangeError_runtime]].
  replace (4 * (w * h))%N with (w * h * 4)%N by lia.
  unfold newUint32Array, newFloat32Array.
  rewrite newTypedArray_whole by done.
  destruct (mapped bun f (16 * (w * h))) eqn:Hf; cbn [andb];
    [| eexists; split; [reflexivity | by apply rangeError_runtime]].
  destruct (mapped bun b (16 * (w * h))) eqn:Hb; cbn [andb];
    [| replace (16 * (w * h))%N with (4 * (w * h) * 4)%N by lia;
       rewrite newTypedArray_whole by done;
       replace (4 * (w * h) * 4)%N with (16 * (w * h))%N by lia;
       eexists; split; [reflexivity | by apply rangeError_runtime]].
  replace (16 * (w * h))%N with (4 * (w * h) * 4)%N by lia.
  rewrite !newTypedArray_whole by done.
  destruct (mapped bun a (w * h)) eqn:Ha;
    [| eexists; split; [reflexivity | by apply rangeError_runtime]].
  rewrite newUint8Array_whole.
  eexists; split; [reflexivity |].
  split.
  - unfold viewsMatch; cbn. repeat split; lia.
  - by unfold viewsAt; cbn.
Qed.

Lemma falsy_address (p : option Pointer) :
  falsy p = false → p = Some (address p).
Proof. by destruct p. Qed.

(** The two renderer buffers are fetched by the same code; [next] picks
    [getNextBuffer] and its symbol, otherwise [getCurrentBuffer]. *)
Lemma rendererBuffer_outcome {St} (bun : Runtime) (this : FFIRenderLib St)
    (next : bool) (renderer : Pointer) (s : St) :
  let sym := opentui this in
  let method :=
    if next then getNextBuffer bun this else getCurrentBuffer bun this in
  let native := if next then sym_getNextBuffer sym else sym_getCurrentBuffer sym in
  let failure := if next then "Failed to get next buffer"
                 else "Failed to get current buffer" in
  let '(p, s1) := native renderer s in
  let '(w, s2) := sym_getBufferWidth sym (address p) s1 in
  let '(h, s3) := sym_getBufferHeight sym (address p) s2 in
  let '(ps, s4) := arrayPointers sym (address p) s3 in
  if falsy p then method renderer s = (Throw failure, s1)
  else if anyNull ps
  then method renderer s = (Throw "Failed to get buffer pointers", s4)
  else if allMapped bun ps (w * h)
  then ∃ bs, method renderer s
             = (Ok (mkOptimizedBuffer St this (address p) bs w h None), s4)
             ∧ viewsMatch bs w h ∧ viewsAt bs ps
  else ∃ msg, method renderer s = (Throw msg, s4) ∧ runtimeError bun msg.
Proof.
  cbv zeta.
  destruct next; unfold getNextBuffer, getCurrentBuffer; unfold_M; cbv zeta.
  1: destruct (sym_getNextBuffer _ _ _) as [p s1].
  2: destruct (sym_getCurrentBuffer _ _ _) as [p s1].
  all: cbv beta iota; destruct (falsy p); cbv beta iota.
  all: destruct (sym_getBufferWidth _ _ _) as [w s2]; cbv beta iota.
  all: destruct (sym_getBufferHeight _ _ _) as [h s3]; cbv beta iota.
  all: pose proof (getBuffer_outcome bun this (address p) w h s3) as Hout.
  all: destruct (arrayPointers _ _ _) as [ps s4].
  all: try done.
  all: destruct (anyNull ps); [by rewrite Hout |].
  all: destruct (allMapped bun ps (w * h)).
  all: try (destruct Hout as (bs & -> & Hm & Ha); by exists bs).
  all: destruct Hout as (msg & -> & Hmsg); by exists msg.
Qed.

Lemma createOptimizedBuffer_outcome {St} (bun : Runtime)
    (this : FFIRenderLib St) (width height : N) (respectAlpha : option bool)
    (s : St) :
  let sym := opentui this in
  let '(p, s1) :=
    sym_createOptimizedBuffer sym width height (respectAlpha ?? false) s in
  let '(ps, s2) := arrayPointers sym (address p) s1 in
  if falsy p
  then createOptimizedBuffer bun this width height respectAlpha s
       = (Throw "Failed to create optimized buffer", s1)
  else if anyNull ps
  then createOptimizedBuffer bun this width height respectAlpha s
       = (Throw "Failed to get buffer pointers", s2)
  else if allMapped bun ps (width * height)
  then ∃ bs, createOptimizedBuffer bun this width height respectAlpha s
             = (Ok (mkOptimizedBuffer St this (address p) bs width height
                      (Some (respectAlpha ?? false))), s2)
             ∧ viewsMatch bs width height ∧ viewsAt bs ps
  else ∃ msg, createOptimizedBuffer bun this width height respectAlpha s
              = (Throw msg, s2)
              ∧ runtimeError bun msg.
Proof.
  cbv zeta. unfold createOptimizedBuffer; unfold_M; cbv zeta.
  destruct (sym_createOptimizedBuffer _ _ _ _ _) as [p s1]. cbv beta iota.
  pose proof (getBuffer_outcome bun this (address p) width height s1) as Hout.
  destruct (arrayPointers _ _ _) as [ps s2].
  destruct (falsy p); [done |]. cbv beta iota.
  destruct (anyNull ps); [by rewrite Hout |].
  destruct (allMapped bun ps (width * height)).
  - destruct Hout as (bs & -> & Hm & Ha). by exists bs.
  - destruct Hout as (msg & -> & Hmsg). by exists msg.
Qed.


(** ** Allocation failure *)


Example createOptimizedBuffer_without_char_array :
  createOptimizedBuffer sampleRuntime noCharArrayLibrary 3 2 None tt
  = (Throw "Failed to get buffer pointers", tt)
  ∧ sym_createOptimizedBuffer (opentui noCharArrayLibrary) 3 2 false tt
    = (Some 7%N, tt).
Proof. split; reflexivity. Qed.

(** A buffer of no cells cannot be wrapped: the range of its character
    array is empty, and [toArrayBuffer] throws. *)
Example createOptimizedBuffer_of_no_cells :
  createOptimizedBuffer sampleRuntime soundLibrary 0 0 None tt
  = (Throw "length must be > 0", tt).
Proof. reflexivity. Qed.



(** ** Lengths of the views *)

(** C4, as stated, fails for [createOptimizedBuffer]: the wrapper sizes
    the views by the width and height it was called with and never asks
    the engine.  A library whose buffers report 3 by 2 cells, asked for 5
    by 4, gets views of 20 cells. *)
Lemma created_views_follow_request :
  ¬ createdViewsMatchReported sampleRuntime soundLibrary 5 4 None tt.
Proof.
  unfold createdViewsMatchReported. intros Hclaim.
  destruct (Hclaim _ tt 3%N tt 2%N tt eq_refl eq_refl eq_refl)
    as (_ & Hlength & _).
  cbn in Hlength. discriminate.
Qed.

Example createOptimizedBuffer_asked_5_by_4 :
  match fst (createOptimizedBuffer sampleRuntime soundLibrary 5 4 None tt) with
  | Ok b => ta_length (char (ob_buffers b)) = 20%N
  | Throw _ => False
  end
  ∧ sym_getBufferWidth (opentui soundLibrary) 7%N tt = (3%N, tt)
  ∧ sym_getBufferHeight (opentui soundLibrary) 7%N tt = (2%N, tt).
Proof. repeat split. Qed.

(** C4, amended.  A buffer returned by [getNextBuffer] or
    [getCurrentBuffer] wraps the pointer the engine returned and carries
    the width [w] and height [h] the engine reported for it; a buffer
    returned by [createOptimizedBuffer] carries the width [w] and height
    [h] it was called with.  In all three the four views hold [w*h]
    uint32, [4*(w*h)] float32, [4*(w*h)] float32 and [w*h] uint8
    elements and start at the native array pointers.  A null buffer
    pointer or a null array pointer makes the call raise an error instead
    of returning a buffer, and the call returns a buffer exactly when none
    of these pointers is null and [toArrayBuffer] maps the four arrays. *)
Theorem returned_views_match_cell_count {St} (bun : Runtime)
    (this : FFIRenderLib St) :
  let sym := opentui this in
  (∀ (next : bool) (renderer : Pointer) (s : St),
     let method :=
       if next then getNextBuffer bun this else getCurrentBuffer bun this in
     let native :=
       if next then sym_getNextBuffer sym else sym_getCurrentBuffer sym in
     let '(p, s1) := native renderer s in
     let '(w, s2) := sym_getBufferWidth sym (address p) s1 in
     let '(h, s3) := sym_getBufferHeight sym (address p) s2 in
     let ps := fst (arrayPointers sym (address p) s3) in
     (∀ b s', method renderer s = (Ok b, s') →
        p = Some (ob_ptr b) ∧ ob_width b = w ∧ ob_height b = h
        ∧ viewsMatch (ob_buffers b) w h ∧ viewsAt (ob_buffers b) ps)
     ∧ (falsy p = true ∨ anyNull ps = true → raises (method renderer s))
     ∧ (is_ok (fst (method renderer s)) = true
        ↔ falsy p = false ∧ anyNull ps = false
          ∧ allMapped bun ps (w * h) = true))
  ∧ (∀ (width height : N) (respectAlpha : option bool) (s : St),
     let '(p, s1) :=
       sym_createOptimizedBuffer sym width height (respectAlpha ?? false) s in
     let ps := fst (arrayPointers sym (address p) s1) in
     (∀ b s',
        createOptimizedBuffer bun this width height respectAlpha s
        = (Ok b, s') →
        p = Some (ob_ptr b) ∧ ob_width b = width ∧ ob_height b = height
        ∧ viewsMatch (ob_buffers b) width height
        ∧ viewsAt (ob_buffers b) ps)
     ∧ (falsy p = true ∨ anyNull ps = true →
        raises (createOptimizedBuffer bun this width height respectAlpha s))
     ∧ (is_ok (fst (createOptimizedBuffer bun this width height respectAlpha s))
        = true
        ↔ falsy p = false ∧ anyNull ps = false
          ∧ allMapped bun ps (width * height) = true)).
Proof.
  cbv zeta. split.
  - intros next renderer s.
    pose proof (rendererBuffer_outcome bun this next renderer s) as Hout.
    cbv zeta in Hout.
    destruct (if next then sym_getNextBuffer _ else sym_getCurrentBuffer _)
      as [p s1].
    destruct (sym_getBufferWidth _ _ _) as [w s2].
    destruct (sym_getBufferHeight _ _ _) as [h s3].
    destruct (arrayPointers _ _ _) as [ps s4]. cbn [fst].
    unfold raises.
    destruct (falsy p) eqn:Hp;
      [| destruct (anyNull ps) eqn:Hps;
         [| destruct (allMapped bun ps (w * h)) eqn:Hmap]].
    + rewrite Hout. cbn. split; [| split]; [done | done | intuition discriminate].
    + rewrite Hout. cbn. split; [| split]; [done | done | intuition discriminate].
    + destruct Hout as (bs & -> & Hm & Ha). split; [| split].
      * intros b s' [= <- <-]. cbn. by auto using falsy_address.
      * by intros [? | ?].
      * done.
    + destruct Hout as (msg & -> & _). cbn.
      split; [| split]; [done | by intros [? | ?] | intuition discriminate].
  - intros width height respectAlpha s.
    pose proof (createOptimizedBuffer_outcome bun this width height
                  respectAlpha s) as Hout. cbv zeta in Hout.
    destruct (sym_createOptimizedBuffer _ _ _ _ _) as [p s1].
    destruct (arrayPointers _ _ _) as [ps s2]. cbn [fst].
    unfold raises.
    destruct (falsy p) eqn:Hp;
      [| destruct (anyNull ps) eqn:Hps;
         [| destruct (allMapped bun ps (width * height)) eqn:Hmap]].
    + rewrite Hout. cbn. split; [| split]; [done | done | intuition discriminate].
    + rewrite Hout. cbn. split; [| split]; [done | done | intuition discriminate].
    + destruct Hout as (bs & -> & Hm & Ha). split; [| split].
      * intros b s' [= <- <-]. cbn. by auto using falsy_address.
      * by intros [? | ?].
      * done.
    + destruct Hout as (msg & -> & _). cbn.
      split; [| split]; [done | by intros [? | ?] | intuition discriminate].
Qed.

(** C4, amended, at a library whose buffers are 3 by 2: the buffer that
    [getNextBuffer] returns has views of 6, 24, 24 and 6 elements. *)
Lemma returned_views_match_cell_count_witness :
  ∃ b, getNextBuffer sampleRuntime soundLibrary 1%N tt = (Ok b, tt)
       ∧ viewsMatch (ob_buffers b) 3 2
       ∧ ta_length (fg (ob_buffers b)) = 24%N.
Proof.
  eexists. split; [reflexivity |].
  destruct (proj1 (proj1 (returned_views_match_cell_count sampleRuntime
                            soundLibrary)
                     true 1%N tt) _ tt eq_refl)
    as (_ & _ & _ & Hmatch & _).
  split; [exact Hmatch | reflexivity].
Defined.


Example bufferResize_without_char_array :
  bufferResize sampleRuntime noCharArrayLibrary 7%N 3 2 tt
  = (Throw "Failed to get buffer pointers", tt).
Proof. reflexivity. Qed.

(** Resizing to no cells, or to more bytes than the run time maps, raises
    as well, with all four pointers in place. *)
Example bufferResize_to_unmapped_sizes :
  bufferResize sampleRuntime soundLibrary 7%N 0 5 tt
  = (Throw "length must be > 0", tt)
  ∧ bufferResize sampleRuntime soundLibrary 7%N 32768 32768 tt
    = (Throw "cannot map the range", tt).
Proof. split; reflexivity. Qed.



(** ** The memo of [resolveRenderLib] *)

Lemma setRenderLibPath_state {St} (p : string) (ms : ModuleState (St:=St)) :
  opentuiLibPath (snd (setRenderLibPath p ms)) = Some p
  ∧ opentuiLib (snd (setRenderLibPath p ms)) = opentuiLib ms
  ∧ allocated (snd (setRenderLibPath p ms)) = allocated ms.
Proof. done. Qed.

(** Once an instance is stored, every call returns it and the state keeps
    it, whatever paths are set in between. *)
Lemma run_stored {St} (host : Host St) (calls : list ModuleCall)
    (ms : ModuleState) (lib : FFIRenderLib St) :
  opentuiLib ms = Some lib →
  Forall (λ r, r = Ok lib) (fst (run host calls ms))
  ∧ opentuiLib (snd (run host calls ms)) = Some lib.
Proof.
  revert ms. induction calls as [| c calls IH]; intros ms Hlib; [done |].
  destruct c as [p |]; cbn [run].
  - by apply IH.
  - assert (Hcall : resolveRenderLib host ms = (Ok lib, ms))
      by (unfold resolveRenderLib; by rewrite Hlib).
    rewrite Hcall. destruct (IH ms Hlib) as [Hall Hkept].
    destruct (run host calls ms) as [rs ms'']. cbn [fst snd] in *.
    split; [by constructor | done].
Qed.

(** A call that raises stores nothing: the next call tries again. *)
Lemma resolveRenderLib_raise_keeps_state {St} (host : Host St)
    (ms ms' : ModuleState) (msg : string) :
  resolveRenderLib host ms = (Throw msg, ms') → ms' = ms.
Proof.
  unfold resolveRenderLib. destruct (opentuiLib ms); [done |].
  destruct (newFFIRenderLib _ _ _); by intros [= ].
Qed.

(** C10, as stated, fails: on a host without a packaged library the first
    call raises, and a path set after it decides which library the next
    call returns. *)
Lemma later_path_used_after_failure :
  ¬ laterPathIgnored bareHost initialModuleState "/opt/libopentui.so".
Proof. unfold laterPathIgnored. cbn. discriminate. Qed.

Example resolveRenderLib_on_bare_host :
  let '(first, ms1) := resolveRenderLib bareHost initialModuleState in
  let '(second, _) :=
    resolveRenderLib bareHost (snd (setRenderLibPath "/opt/libopentui.so" ms1)) in
  first = Throw "opentui is not supported on the current platform: linux-x64"
  ∧ is_ok second = true
  ∧ ms1 = initialModuleState.
Proof. repeat split. Qed.

(** The empty path is falsy: the library is looked up as if no path had
    been set. *)
Lemma resolvedLibPath_empty {St} (host : Host St) :
  resolvedLibPath host (Some ""%string) = resolvedLibPath host None.
Proof. reflexivity. Qed.

(** As long as every [resolveRenderLib] raises, the module keeps the path
    set last and stores no instance. *)
Lemma run_raising {St} (host : Host St) (calls : list ModuleCall)
    (ms : ModuleState) :
  opentuiLib ms = None →
  Forall (λ r, is_ok r = false) (fst (run host calls ms)) →
  snd (run host calls ms)
  = {| opentuiLibPath := lastPathFrom (opentuiLibPath ms) calls;
       opentuiLib := None;
       allocated := allocated ms |}.
Proof.
  revert ms. induction calls as [| c calls IH]; intros ms Hnone Hraise.
  - destruct ms; cbn in *. by subst.
  - destruct c as [p |]; cbn [run lastPathFrom] in *.
    + by rewrite IH.
    + destruct (resolveRenderLib host ms) as [r ms'] eqn:Hcall.
      destruct (run host calls ms') as [rs ms''] eqn:Hrun.
      cbn [fst snd] in *. apply Forall_cons in Hraise as [Hr Hrs].
      destruct r as [lib | msg]; [done |].
      apply resolveRenderLib_raise_keeps_state in Hcall as ->.
      specialize (IH ms Hnone). rewrite Hrun in IH. by apply IH.
Qed.

(** C10, amended.  Let [before] be any calls of the module's two exports
    in which every [resolveRenderLib] raised.  Then the module has stored
    no instance and holds the path set last.  If the next
    [resolveRenderLib] does not raise, it returns a new [FFIRenderLib]
    made from that path, whose library is the one opened at that path when
    it is not empty, and at the library [findLibrary] discovers when no
    path or the empty path was set; and every later [resolveRenderLib]
    returns this same instance, whatever [setRenderLibPath] calls come in
    between.  If it raises, it raises the error of the constructor for
    that path and stores nothing, so that the call after it constructs
    again from the path set by then. *)
Theorem resolveRenderLib_memoized {St} (host : Host St)
    (before later : list ModuleCall) :
  let start := run host before initialModuleState in
  Forall (λ r, is_ok r = false) (fst start) →
  snd start = {| opentuiLibPath := lastPath before;
                 opentuiLib := None;
                 allocated := 0 |}
  ∧ (∀ (lib : FFIRenderLib St) (ms : ModuleState),
       resolveRenderLib host (snd start) = (Ok lib, ms) →
       newFFIRenderLib host 0 (lastPath before) = Ok lib
       ∧ (∃ path, dlopen host path = Ok (opentui lib)
                  ∧ match lastPath before with
                    | Some p => if String.eqb p ""
                                then findLibrary host = Ok path
                                else path = p
                    | None => findLibrary host = Ok path
                    end)
       ∧ opentuiLib ms = Some lib
       ∧ Forall (λ r, r = Ok lib) (fst (run host later ms)))
  ∧ (∀ (msg : string) (ms : ModuleState),
       resolveRenderLib host (snd start) = (Throw msg, ms) →
       newFFIRenderLib host 0 (lastPath before) = Throw msg
       ∧ ms = snd start
       ∧ ∀ p, fst (resolveRenderLib host (snd (setRenderLibPath p ms)))
              = newFFIRenderLib host 0 (Some p)).
Proof.
  cbv zeta. intros Hraise.
  pose proof (run_raising host before initialModuleState eq_refl Hraise)
    as Hstart.
  cbn [opentuiLibPath allocated initialModuleState] in Hstart.
  fold (lastPath before) in Hstart. rewrite Hstart.
  split; [done |].
  unfold resolveRenderLib. cbn [opentuiLib opentuiLibPath allocated].
  split.
  - intros lib ms Hfirst.
    assert (Hnew : newFFIRenderLib host 0 (lastPath before) = Ok lib)
      by (destruct (newFFIRenderLib _ _ _); by simplify_eq).
    rewrite Hnew in Hfirst. injection Hfirst as <-.
    split; [done |]. split; [| split; [done |]].
    + unfold newFFIRenderLib, getOpenTUILib, resolvedLibPath in Hnew.
      destruct (lastPath before) as [p |].
      * destruct (String.eqb p "").
        -- destruct (findLibrary host) as [path |]; [| done].
           destruct (dlopen host path) eqn:Hopen; [| done].
           exists path. by simplify_eq.
        -- destruct (dlopen host p) eqn:Hopen; [| done].
           exists p. by simplify_eq.
      * destruct (findLibrary host) as [path |]; [| done].
        destruct (dlopen host path) eqn:Hopen; [| done].
        exists path. by simplify_eq.
    + by apply run_stored.
  - intros msg ms Hfirst.
    destruct (newFFIRenderLib host 0 (lastPath before)) as [lib |] eqn:Hnew;
      [done |].
    injection Hfirst as <- <-. split; [done |]. split; [done |].
    intros p. cbn. by destruct (newFFIRenderLib host 0 (Some p)).
Qed.

(** C10, amended, on a host without a packaged library: the first call
    raises; after [/opt/libopentui.so] was set the next call opens it, and
    a later call returns the same instance although another path was
    set. *)
Lemma resolveRenderLib_memoized_witness :
  ∃ lib ms,
    resolveRenderLib bareHost
      (snd (run bareHost
              [CallResolveRenderLib; CallSetRenderLibPath "/opt/libopentui.so"]
              initialModuleState))
    = (Ok lib, ms)
    ∧ newFFIRenderLib bareHost 0 (Some "/opt/libopentui.so") = Ok lib
    ∧ Forall (λ r, r = Ok lib)
        (fst (run bareHost
                [CallSetRenderLibPath "/c/libopentui.so"; CallResolveRenderLib]
                ms)).
Proof.
  eexists _, _. split; [reflexivity |].
  destruct (resolveRenderLib_memoized bareHost
              [CallResolveRenderLib; CallSetRenderLibPath "/opt/libopentui.so"]
              [CallSetRenderLibPath "/c/libopentui.so"; CallResolveRenderLib])
    as (_ & Hok & _).
  { constructor; [reflexivity | constructor]. }
  destruct (Hok _ _ eq_refl) as (Hnew & _ & _ & Hlater).
  split; [exact Hnew | exact Hlater].
Defined.

(** ** The hit grid *)

Section HitGrid.

Import Engine.

Lemma setOwner_dims (id : N) (g : HitGrid) (cell : Z * Z) :
  gridWidth (setOwner id g cell) = gridWidth g
  ∧ gridHeight (setOwner id g cell) = gridHeight g.
Proof. destruct cell as [x y]. cbn. by destruct (inGrid g x y). Qed.

Lemma setOwner_shaped (id : N) (g : HitGrid) (cell : Z * Z) :
  gridShaped g → gridShaped (setOwner id g cell).
Proof.
  destruct cell as [x y]. unfold gridShaped. cbn.
  destruct (inGrid g x y); [| done]. cbn. by rewrite length_insert.
Qed.

Lemma inGrid_dims (g g' : HitGrid) (x y : Z) :
  gridWidth g' = gridWidth g → gridHeight g' = gridHeight g →
  inGrid g' x y = inGrid g x y.
Proof. unfold inGrid. by intros -> ->. Qed.

Lemma inGrid_spec (g : HitGrid) (x y : Z) :
  inGrid g x y = true
  ↔ (0 ≤ x < Z.of_N (gridWidth g))%Z ∧ (0 ≤ y < Z.of_N (gridHeight g))%Z.
Proof.
  unfold inGrid. rewrite !andb_true_iff, !Z.leb_le, !Z.ltb_lt. lia.
Qed.

(** Row-major indices of cells of the grid are below its size, and two
    cells with the same index are the same cell. *)
Lemma gridIndex_lt (g : HitGrid) (x y : Z) :
  gridShaped g → inGrid g x y = true → gridIndex g x y < length (owners g).
Proof.
  unfold gridShaped, gridIndex. intros -> [Hx Hy]%inGrid_spec. nia.
Qed.

Lemma gridIndex_inj (g : HitGrid) (x y x' y' : Z) :
  inGrid g x y = true → inGrid g x' y' = true →
  gridIndex g x y = gridIndex g x' y' → x = x' ∧ y = y'.
Proof.
  unfold gridIndex. intros [Hx Hy]%inGrid_spec [Hx' Hy']%inGrid_spec Heq.
  assert (y * Z.of_N (gridWidth g) + x = y' * Z.of_N (gridWidth g) + x')%Z
    as Hz by nia.
  assert (y = y') by nia. split; nia.
Qed.

(** One write to the raster: the written cell reads the new id, every
    other cell reads what it read before. *)
Lemma checkHit_setOwner (id : N) (g : HitGrid) (cell : Z * Z) (x y : Z) :
  gridShaped g →
  checkHit (setOwner id g cell) x y
  = if inGrid g x y && bool_decide (cell = (x, y)) then id else checkHit g x y.
Proof.
  intros Hshape. destruct cell as [cx cy]. unfold checkHit.
  rewrite (inGrid_dims g (setOwner id g (cx, cy)))
    by apply setOwner_dims.
  destruct (inGrid g x y) eqn:Hin; [| done]. cbn [andb setOwner].
  destruct (inGrid g cx cy) eqn:Hcin.
  - cbn [owners gridIndex gridWidth]. unfold gridIndex at 1 2. cbn [gridWidth].
    fold (gridIndex g cx cy). fold (gridIndex g x y).
    case_bool_decide as Hcell.
    + simplify_eq. rewrite list_lookup_insert_eq; [done |].
      by apply gridIndex_lt.
    + rewrite list_lookup_insert_ne; [done |].
      intros Hidx. apply Hcell.
      by destruct (gridIndex_inj g cx cy x y Hcin Hin Hidx) as [-> ->].
  - case_bool_decide as Hcell; [| done]. simplify_eq. congruence.
Qed.

Lemma checkHit_foldl_setOwner (id : N) (cells : list (Z * Z)) (g : HitGrid)
    (x y : Z) :
  gridShaped g →
  checkHit (foldl (setOwner id) g cells) x y
  = if inGrid g x y && bool_decide ((x, y) ∈ cells) then id else checkHit g x y.
Proof.
  revert g. induction cells as [| cell cells IH]; intros g Hshape.
  - cbn. rewrite andb_false_r. done.
  - cbn [foldl]. rewrite IH by by apply setOwner_shaped.
    rewrite (inGrid_dims g (setOwner id g cell)) by apply setOwner_dims.
    rewrite checkHit_setOwner by done.
    destruct (inGrid g x y); [| done]. cbn [andb].
    rewrite (bool_decide_ext ((x, y) ∈ cell :: cells)
               (cell = (x, y) ∨ (x, y) ∈ cells))
      by (rewrite elem_of_cons; split;
          (intros [Heq | Hin]; [left; by symmetry | by right])).
    rewrite bool_decide_or.
    by destruct (bool_decide ((x, y) ∈ cells)), (bool_decide (cell = (x, y))).
Qed.

Lemma elem_of_rectCells (x y w h px py : Z) :
  (px, py) ∈ rectCells x y w h
  ↔ (x ≤ px < x + w)%Z ∧ (y ≤ py < y + h)%Z.
Proof.
  unfold rectCells. rewrite list_elem_of_bind. split.
  - intros (cy & (cx & Hcell & Hcx%elem_of_seqZ)%list_elem_of_bind
               & Hcy%elem_of_seqZ).
    apply list_elem_of_singleton in Hcell. by simplify_eq.
  - intros [Hx Hy]. exists py. split; [| by apply elem_of_seqZ].
    apply list_elem_of_bind. exists px.
    split; [by apply list_elem_of_singleton | by apply elem_of_seqZ].
Qed.

Lemma covers_spec (x y w h px py : Z) :
  covers x y w h px py = true
  ↔ (x ≤ px < x + w)%Z ∧ (y ≤ py < y + h)%Z.
Proof.
  unfold covers. rewrite !andb_true_iff, !Z.leb_le, !Z.ltb_lt. lia.
Qed.

Lemma covers_rectCells (x y w h px py : Z) :
  bool_decide ((px, py) ∈ rectCells x y w h) = covers x y w h px py.
Proof.
  apply eq_true_iff_eq.
  by rewrite bool_decide_eq_true, elem_of_rectCells, covers_spec.
Qed.

(** Last write wins: after [addToHitGrid] a covered cell of the grid reads
    the new id, every other cell reads what it read before. *)
Lemma checkHit_addToHitGrid (g : HitGrid) (x y w h : Z) (id : N) (px py : Z) :
  gridShaped g →
  checkHit (addToHitGrid g x y w h id) px py
  = if inGrid g px py && covers x y w h px py then id else checkHit g px py.
Proof.
  intros Hshape. unfold addToHitGrid.
  by rewrite checkHit_foldl_setOwner, covers_rectCells.
Qed.

Lemma addToHitGrid_dims (g : HitGrid) (x y w h : Z) (id : N) :
  gridWidth (addToHitGrid g x y w h id) = gridWidth g
  ∧ gridHeight (addToHitGrid g x y w h id) = gridHeight g.
Proof.
  unfold addToHitGrid. generalize (rectCells x y w h) as cells.
  intros cells. revert g. induction cells as [| cell cells IH]; intros g; [done |].
  cbn [foldl]. destruct (IH (setOwner id g cell)) as [-> ->].
  apply setOwner_dims.
Qed.

Lemma addToHitGrid_shaped (g : HitGrid) (x y w h : Z) (id : N) :
  gridShaped g → gridShaped (addToHitGrid g x y w h id).
Proof.
  unfold addToHitGrid. generalize (rectCells x y w h) as cells.
  intros cells. revert g. induction cells as [| cell cells IH]; intros g Hg; [done |].
  cbn [foldl]. by apply IH, setOwner_shaped.
Qed.

(** After [clearHitGrid] no cell has an owner. *)
Lemma checkHit_clearHitGrid (g : HitGrid) (x y : Z) :
  checkHit (clearHitGrid g) x y = 0%N.
Proof.
  unfold checkHit. destruct (inGrid _ _ _); [| done]. cbn [owners clearHitGrid].
  destruct (replicate _ _ !! _) as [v |] eqn:Hv; [| done].
  by apply lookup_replicate in Hv as [-> _].
Qed.

End HitGrid.

Lemma updateHitGrid_lookup (f : Engine.HitGrid → Engine.HitGrid)
    (renderer : Pointer) (e : Engine.State) (g : Engine.HitGrid) :
  Engine.hitGrids e !! renderer = Some g →
  Engine.hitGrids (Engine.updateHitGrid f renderer e) !! renderer = Some (f g).
Proof.
  intros Hg. unfold Engine.updateHitGrid. rewrite Hg. cbn.
  apply lookup_insert_eq.
Qed.

(** C8.  On the engine, for a renderer whose hit grid has at least 8
    columns and 8 rows: after addToHitGrid(0,0,10,10,1) and then
    addToHitGrid(5,5,10,10,2), checkHit(7,7) returns 2 and checkHit(1,1)
    returns 1.  For any two registrations, a cell of the grid reads the id
    of the later rectangle if that covers it, else the id of the earlier
    one if that covers it, else what it read before.  After
    clearHitGrid, from whatever state, checkHit returns 0 at every
    position. *)
Theorem hitGrid_last_write_wins (base : Symbols Engine.State)
    (renderer : Pointer) (e : Engine.State) (g : Engine.HitGrid) :
  let this := onEngine base in
  Engine.hitGrids e !! renderer = Some g →
  Engine.gridShaped g →
  (8 ≤ Engine.gridWidth g)%N → (8 ≤ Engine.gridHeight g)%N →
  (let painted :=
     snd ((addToHitGrid this renderer 0 0 10 10 1 ;;
           addToHitGrid this renderer 5 5 10 10 2) e) in
   checkHit this renderer 7 7 painted = (Ok 2%N, painted)
   ∧ checkHit this renderer 1 1 painted = (Ok 1%N, painted))
  ∧ (∀ (x1 y1 : Z) (w1 h1 id1 : N) (x2 y2 : Z) (w2 h2 id2 : N) (px py : N),
       (px < Engine.gridWidth g)%N → (py < Engine.gridHeight g)%N →
       let painted :=
         snd ((addToHitGrid this renderer x1 y1 w1 h1 id1 ;;
               addToHitGrid this renderer x2 y2 w2 h2 id2) e) in
       fst (checkHit this renderer px py painted)
       = Ok (if covers x2 y2 (Z.of_N w2) (Z.of_N h2) (Z.of_N px) (Z.of_N py)
             then id2
             else if covers x1 y1 (Z.of_N w1) (Z.of_N h1) (Z.of_N px) (Z.of_N py)
             then id1
             else Engine.checkHit g (Z.of_N px) (Z.of_N py)))
  ∧ (∀ (e' : Engine.State) (x y : N),
       let cleared := snd (clearHitGrid this renderer e') in
       checkHit this renderer x y cleared = (Ok 0%N, cleared)).
Proof.
  intros this Hg Hshape Hw Hh.
  assert (Hgeneral :
    ∀ (x1 y1 : Z) (w1 h1 id1 : N) (x2 y2 : Z) (w2 h2 id2 : N) (px py : N),
      (px < Engine.gridWidth g)%N → (py < Engine.gridHeight g)%N →
      let painted :=
        snd ((addToHitGrid this renderer x1 y1 w1 h1 id1 ;;
              addToHitGrid this renderer x2 y2 w2 h2 id2) e) in
      checkHit this renderer px py painted
      = (Ok (if covers x2 y2 (Z.of_N w2) (Z.of_N h2) (Z.of_N px) (Z.of_N py)
             then id2
             else if covers x1 y1 (Z.of_N w1) (Z.of_N h1) (Z.of_N px) (Z.of_N py)
             then id1
             else Engine.checkHit g (Z.of_N px) (Z.of_N py)), painted)).
  { intros x1 y1 w1 h1 id1 x2 y2 w2 h2 id2 px py Hpx Hpy painted.
    subst painted. unfold addToHitGrid, checkHit. unfold_M. cbn.
    set (e1 := Engine.updateHitGrid _ renderer e).
    pose proof (updateHitGrid_lookup
                  (λ g0, Engine.addToHitGrid g0 x1 y1 (Z.of_N w1) (Z.of_N h1) id1)
                  renderer e g Hg) as Hg1.
    fold e1 in Hg1.
    erewrite updateHitGrid_lookup by exact Hg1.
    do 2 f_equal.
    rewrite !checkHit_addToHitGrid
      by auto using addToHitGrid_shaped.
    rewrite (inGrid_dims g (Engine.addToHitGrid g _ _ _ _ _))
      by apply addToHitGrid_dims.
    assert (Engine.inGrid g (Z.of_N px) (Z.of_N py) = true) as ->
      by (apply inGrid_spec; lia).
    done. }
  split; [| split].
  - cbv zeta. split.
    + rewrite (Hgeneral 0%Z 0%Z 10%N 10%N 1%N 5%Z 5%Z 10%N 10%N 2%N 7%N 7%N)
        by lia. done.
    + rewrite (Hgeneral 0%Z 0%Z 10%N 10%N 1%N 5%Z 5%Z 10%N 10%N 2%N 1%N 1%N)
        by lia. done.
  - intros x1 y1 w1 h1 id1 x2 y2 w2 h2 id2 px py Hpx Hpy painted.
    subst painted. by rewrite Hgeneral.
  - intros e' x y cleared. subst cleared.
    unfold clearHitGrid, checkHit. unfold_M. cbn.
    unfold Engine.updateHitGrid.
    destruct (Engine.hitGrids e' !! renderer) as [g' |] eqn:Hg'.
    + cbn. rewrite lookup_insert_eq. by rewrite checkHit_clearHitGrid.
    + by rewrite Hg'.
Qed.

(** C8 on a renderer of 16 by 12 cells with an empty hit grid. *)
Lemma hitGrid_last_write_wins_witness :
  let this := onEngine noSymbols in
  let painted :=
    snd ((addToHitGrid this 1%N 0 0 10 10 1 ;;
          addToHitGrid this 1%N 5 5 10 10 2) sampleEngine) in
  (checkHit this 1%N 7 7 painted = (Ok 2%N, painted)
   ∧ checkHit this 1%N 1 1 painted = (Ok 1%N, painted))
  ∧ fst (checkHit this 1%N 1 1 (snd (clearHitGrid this 1%N painted))) = Ok 0%N.
Proof.
  cbv zeta.
  assert (Hg : Engine.hitGrids sampleEngine !! 1%N = Some blankGrid)
    by reflexivity.
  assert (Hshape : Engine.gridShaped blankGrid) by reflexivity.
  assert (Hw : (8 ≤ Engine.gridWidth blankGrid)%N) by (cbn; lia).
  assert (Hh : (8 ≤ Engine.gridHeight blankGrid)%N) by (cbn; lia).
  destruct (hitGrid_last_write_wins noSymbols 1%N sampleEngine blankGrid
              Hg Hshape Hw Hh) as (Hexample & _ & Hclear).
  split; [exact Hexample |].
  cbv zeta in Hclear.
  by rewrite Hclear.
Defined.

(** ** Writes outside the bounds of a cell buffer *)

Section CellBuffer.

Import Engine.

Lemma inBounds_spec (b : CellBuffer) (x y : Z) :
  inBounds b x y = true
  ↔ (0 ≤ x < Z.of_N (width b))%Z ∧ (0 ≤ y < Z.of_N (height b))%Z.
Proof.
  unfold inBounds. rewrite !andb_true_iff, !Z.leb_le, !Z.ltb_lt. lia.
Qed.

Lemma inBounds_outside (b : CellBuffer) (x y : Z) :
  (x < 0 ∨ Z.of_N (width b) ≤ x ∨ y < 0 ∨ Z.of_N (height b) ≤ y)%Z →
  inBounds b x y = false.
Proof.
  intros Hout. apply not_true_iff_false. rewrite inBounds_spec. lia.
Qed.

Lemma inBounds_dims (b b' : CellBuffer) (x y : Z) :
  width b' = width b → height b' = height b →
  inBounds b' x y = inBounds b x y.
Proof. unfold inBounds. by intros -> ->. Qed.

Lemma setCell_outside (b : CellBuffer) (x y : Z) (codepoint : N)
    (fg bg : Color) (attributes : N) :
  inBounds b x y = false →
  setCellWithAlphaBlending b x y codepoint fg bg attributes = b.
Proof. unfold setCellWithAlphaBlending. by intros ->. Qed.

Lemma drawTextCell_outside (b : CellBuffer) (x y : Z) (codepoint : N)
    (fg : Color) (bg : option Color) (attributes : N) :
  inBounds b x y = false →
  drawTextCell b x y codepoint fg bg attributes = b.
Proof. unfold drawTextCell. by intros ->. Qed.

Lemma fillCell_outside (b : CellBuffer) (color : Color) (x y : Z) :
  inBounds b x y = false → fillCell b color (x, y) = b.
Proof. unfold fillCell. by intros ->. Qed.

Lemma drawTextCell_dims (b : CellBuffer) (x y : Z) (codepoint : N)
    (fg : Color) (bg : option Color) (attributes : N) :
  width (drawTextCell b x y codepoint fg bg attributes) = width b
  ∧ height (drawTextCell b x y codepoint fg bg attributes) = height b.
Proof. unfold drawTextCell. by destruct (inBounds b x y). Qed.

Lemma fillCell_dims (b : CellBuffer) (color : Color) (cell : Z * Z) :
  width (fillCell b color cell) = width b
  ∧ height (fillCell b color cell) = height b.
Proof. destruct cell as [x y]. cbn. by destruct (inBounds b x y). Qed.

(** A text none of whose cells lies in the buffer changes nothing. *)
Lemma drawText_outside (b : CellBuffer) (codepoints : list N) (x y : Z)
    (fg : Color) (bg : option Color) (attributes : N) :
  (∀ x', (x ≤ x')%Z → inBounds b x' y = false) →
  drawText b codepoints x y fg bg attributes = b.
Proof.
  revert x. induction codepoints as [| c rest IH]; intros x Hout; [done |].
  cbn [drawText]. rewrite drawTextCell_outside by (apply Hout; lia).
  apply IH. intros x' Hx'. apply Hout. lia.
Qed.

(** The code points that would land beyond the right edge are skipped. *)
Lemma drawText_clip (b : CellBuffer) (codepoints : list N) (x y : Z)
    (fg : Color) (bg : option Color) (attributes : N) :
  (0 ≤ x)%Z →
  drawText b codepoints x y fg bg attributes
  = drawText b (take (Z.to_nat (Z.of_N (width b) - x)) codepoints) x y
      fg bg attributes.
Proof.
  revert b x. induction codepoints as [| c rest IH]; intros b x Hx.
  { by rewrite take_nil. }
  destruct (Z.le_gt_cases (Z.of_N (width b)) x) as [Hright | Hleft].
  - replace (Z.to_nat (Z.of_N (width b) - x)) with 0%nat by lia.
    cbn [take drawText]. rewrite drawTextCell_outside
      by (apply inBounds_outside; lia).
    apply drawText_outside. intros x' Hx'. apply inBounds_outside. lia.
  - replace (Z.to_nat (Z.of_N (width b) - x))
      with (S (Z.to_nat (Z.of_N (width b) - (x + 1)))) by lia.
    cbn [take drawText]. rewrite IH by lia.
    by destruct (drawTextCell_dims b x y c fg bg attributes) as [-> _].
Qed.

(** Without a background, [drawText] leaves the background array as it
    is. *)
Lemma drawText_keeps_bgs (b : CellBuffer) (codepoints : list N) (x y : Z)
    (fg : Color) (attributes : N) :
  bgs (drawText b codepoints x y fg None attributes) = bgs b.
Proof.
  revert b x. induction codepoints as [| c rest IH]; intros b x; [done |].
  cbn [drawText]. rewrite IH. unfold drawTextCell.
  by destruct (inBounds b x y).
Qed.

(** [fillRect] has the effect of filling only those cells of the
    rectangle that lie in the buffer. *)
Lemma foldl_fillCell_inside (color : Color) (cells : list (Z * Z))
    (b : CellBuffer) :
  foldl (λ acc cell, fillCell acc color cell) b cells
  = foldl (λ acc cell, fillCell acc color cell) b
      (List.filter (λ cell, inBounds b cell.1 cell.2) cells).
Proof.
  revert b. induction cells as [| [x y] cells IH]; intros b; [done |].
  cbn [foldl List.filter fst snd].
  destruct (inBounds b x y) eqn:Hin.
  - cbn [foldl]. rewrite IH. f_equal.
    apply List.filter_ext. intros [x' y']. cbn.
    apply inBounds_dims; apply (fillCell_dims b color (x, y)).
  - rewrite fillCell_outside by done. apply IH.
Qed.

Lemma fillRect_inside (b : CellBuffer) (x y w h : Z) (color : Color) :
  fillRect b x y w h color
  = foldl (λ acc cell, fillCell acc color cell) b
      (List.filter (λ cell, inBounds b cell.1 cell.2) (rectCells x y w h)).
Proof. apply foldl_fillCell_inside. Qed.

Lemma foldl_fillCell_outside (color : Color) (cells : list (Z * Z))
    (b : CellBuffer) :
  (∀ px py, (px, py) ∈ cells → inBounds b px py = false) →
  foldl (λ acc cell, fillCell acc color cell) b cells = b.
Proof.
  induction cells as [| [x y] cells IH]; intros Hout; [done |].
  cbn [foldl]. rewrite fillCell_outside by (apply Hout; set_solver).
  apply IH. intros px py Hin. apply Hout. set_solver.
Qed.

(** A rectangle none of whose cells lies in the buffer changes nothing. *)
Lemma fillRect_outside (b : CellBuffer) (x y w h : Z) (color : Color) :
  (∀ px py, covers x y w h px py = true → inBounds b px py = false) →
  fillRect b x y w h color = b.
Proof.
  intros Hout. apply foldl_fillCell_outside. intros px py Hin.
  apply Hout. by apply covers_spec, elem_of_rectCells.
Qed.

Lemma updateBuffer_unchanged (f : CellBuffer → CellBuffer) (ptr : Pointer)
    (e : State) :
  (∀ b, buffers e !! ptr = Some b → f b = b) → updateBuffer f ptr e = e.
Proof.
  intros Hf. unfold updateBuffer.
  destruct (buffers e !! ptr) as [b |] eqn:Hb; [| done].
  rewrite (Hf b eq_refl), insert_id by done. by destruct e.
Qed.

Lemma updateBuffer_ext (f f' : CellBuffer → CellBuffer) (ptr : Pointer)
    (e : State) :
  (∀ b, buffers e !! ptr = Some b → f b = f' b) →
  updateBuffer f ptr e = updateBuffer f' ptr e.
Proof.
  intros Hf. unfold updateBuffer.
  destruct (buffers e !! ptr) as [b |] eqn:Hb; [| done].
  by rewrite (Hf b eq_refl).
Qed.

End CellBuffer.

(** ** UTF-8 *)

Section Utf8.

Local Open Scope N_scope.

Lemma below_forall (n : nat) (P : N → bool) :
  List.forallb P (List.map N.of_nat (List.seq 0 n)) = true →
  ∀ q, (q < N.of_nat n)%N → P q = true.
Proof.
  intros Hall q Hq. rewrite List.forallb_forall in Hall. apply Hall.
  apply List.in_map_iff. exists (N.to_nat q).
  split; [apply N2Nat.id |]. apply List.in_seq. lia.
Qed.

Lemma lor_shiftl_small (q r n : N) :
  (r < 2 ^ n)%N → N.lor (N.shiftl q n) r = (q * 2 ^ n + r)%N.
Proof.
  intros Hr. rewrite N.shiftl_mul_pow2.
  assert (Hdisjoint : N.land (q * 2 ^ n) r = 0%N).
  { apply N.bits_inj. intros i. rewrite N.land_spec, N.bits_0.
    destruct (N.lt_ge_cases i n) as [Hlow | Hhigh].
    - by rewrite N.mul_pow2_bits_low.
    - destruct (N.eq_dec r 0) as [-> | Hpos].
      + by rewrite N.bits_0, andb_false_r.
      + rewrite (N.bits_above_log2 r i), andb_false_r; [done |].
        apply N.log2_lt_pow2; [lia |].
        eapply N.lt_le_trans; [exact Hr |].
        apply N.pow_le_mono_r; lia. }
  by rewrite <- N.lxor_lor, <- N.add_nocarry_lxor.
Qed.

Lemma lead2_facts (q : N) :
  (q < 32)%N →
  (N.lor 0xC0 q <? 0x80)%N = false
  ∧ (N.land (N.lor 0xC0 q) 0xE0 =? 0xC0)%N = true
  ∧ N.land (N.lor 0xC0 q) 0x1F = q.
Proof.
  intros Hq.
  pose proof (below_forall 32
    (λ q, negb (N.lor 0xC0 q <? 0x80)%N
          && (N.land (N.lor 0xC0 q) 0xE0 =? 0xC0)%N
          && (N.land (N.lor 0xC0 q) 0x1F =? q)%N) eq_refl q Hq) as H.
  cbv beta in H.
  apply andb_true_iff in H as [[H1 H2]%andb_true_iff H3].
  by apply negb_true_iff in H1; apply N.eqb_eq in H3.
Qed.

Lemma lead3_facts (q : N) :
  (q < 16)%N →
  (N.lor 0xE0 q <? 0x80)%N = false
  ∧ (N.land (N.lor 0xE0 q) 0xE0 =? 0xC0)%N = false
  ∧ (N.land (N.lor 0xE0 q) 0xF0 =? 0xE0)%N = true
  ∧ N.land (N.lor 0xE0 q) 0x0F = q.
Proof.
  intros Hq.
  pose proof (below_forall 16
    (λ q, negb (N.lor 0xE0 q <? 0x80)%N
          && negb (N.land (N.lor 0xE0 q) 0xE0 =? 0xC0)%N
          && (N.land (N.lor 0xE0 q) 0xF0 =? 0xE0)%N
          && (N.land (N.lor 0xE0 q) 0x0F =? q)%N) eq_refl q Hq) as H.
  cbv beta in H.
  apply andb_true_iff in H as [[[H1 H2]%andb_true_iff H3]%andb_true_iff H4].
  by apply negb_true_iff in H1, H2; apply N.eqb_eq in H4.
Qed.

Lemma lead4_facts (q : N) :
  (q < 8)%N →
  (N.lor 0xF0 q <? 0x80)%N = false
  ∧ (N.land (N.lor 0xF0 q) 0xE0 =? 0xC0)%N = false
  ∧ (N.land (N.lor 0xF0 q) 0xF0 =? 0xE0)%N = false
  ∧ (N.land (N.lor 0xF0 q) 0xF8 =? 0xF0)%N = true
  ∧ N.land (N.lor 0xF0 q) 0x07 = q.
Proof.
  intros Hq.
  pose proof (below_forall 8
    (λ q, negb (N.lor 0xF0 q <? 0x80)%N
          && negb (N.land (N.lor 0xF0 q) 0xE0 =? 0xC0)%N
          && negb (N.land (N.lor 0xF0 q) 0xF0 =? 0xE0)%N
          && (N.land (N.lor 0xF0 q) 0xF8 =? 0xF0)%N
          && (N.land (N.lor 0xF0 q) 0x07 =? q)%N) eq_refl q Hq) as H.
  cbv beta in H.
  apply andb_true_iff in H
    as [[[[H1 H2]%andb_true_iff H3]%andb_true_iff H4]%andb_true_iff H5].
  by apply negb_true_iff in H1, H2, H3; apply N.eqb_eq in H5.
Qed.

Lemma continuation_facts (r : N) :
  (r < 64)%N →
  is_continuation (N.lor 0x80 r) = true ∧ N.land (N.lor 0x80 r) 0x3F = r.
Proof.
  intros Hr.
  pose proof (below_forall 64
    (λ r, is_continuation (N.lor 0x80 r)
          && (N.land (N.lor 0x80 r) 0x3F =? r)%N) eq_refl r Hr) as H.
  cbv beta in H. apply andb_true_iff in H as [H1 H2].
  by apply N.eqb_eq in H2.
Qed.

(** The six low bits of a number, and what is left above them. *)
Lemma low6 (c : N) : N.land c 0x3F = (c mod 64)%N.
Proof. change 0x3F%N with (N.ones 6). by rewrite N.land_ones. Qed.

Lemma low6_lt (c : N) : (N.land c 0x3F < 64)%N.
Proof. rewrite low6. by apply N.mod_lt. Qed.

Lemma shiftr_lt (c n bound : N) :
  (c < bound * 2 ^ n)%N → (N.shiftr c n < bound)%N.
Proof.
  intros Hc. rewrite N.shiftr_div_pow2.
  apply N.Div0.div_lt_upper_bound. lia.
Qed.

Lemma split6 (c : N) : (N.shiftr c 6 * 2 ^ 6 + N.land c 0x3F)%N = c.
Proof.
  rewrite low6, N.shiftr_div_pow2. change (2 ^ 6)%N with 64%N.
  rewrite (N.div_mod c 64) at 3 by done. lia.
Qed.

Lemma decode1 (b0 : N) (rest : list N) :
  (b0 <? 0x80) = true → utf8_decode (b0 :: rest) = b0 :: utf8_decode rest.
Proof. intros H0. cbn [utf8_decode]. by rewrite H0. Qed.

Lemma decode2 (b0 b1 : N) (rest : list N) :
  (b0 <? 0x80) = false → (N.land b0 0xE0 =? 0xC0) = true →
  is_continuation b1 = true →
  utf8_decode (b0 :: b1 :: rest)
  = N.lor (N.shiftl (N.land b0 0x1F) 6) (N.land b1 0x3F) :: utf8_decode rest.
Proof. intros H0 H1 H2. cbn [utf8_decode]. by rewrite H0, H1, H2. Qed.

Lemma decode3 (b0 b1 b2 : N) (rest : list N) :
  (b0 <? 0x80) = false → (N.land b0 0xE0 =? 0xC0) = false →
  (N.land b0 0xF0 =? 0xE0) = true →
  is_continuation b1 = true → is_continuation b2 = true →
  utf8_decode (b0 :: b1 :: b2 :: rest)
  = N.lor (N.shiftl (N.land b0 0x0F) 12)
      (N.lor (N.shiftl (N.land b1 0x3F) 6) (N.land b2 0x3F))
      :: utf8_decode rest.
Proof.
  intros H0 H1 H2 H3 H4. cbn [utf8_decode]. by rewrite H0, H1, H2, H3, H4.
Qed.

Lemma decode4 (b0 b1 b2 b3 : N) (rest : list N) :
  (b0 <? 0x80) = false → (N.land b0 0xE0 =? 0xC0) = false →
  (N.land b0 0xF0 =? 0xE0) = false → (N.land b0 0xF8 =? 0xF0) = true →
  is_continuation b1 = true → is_continuation b2 = true →
  is_continuation b3 = true →
  utf8_decode (b0 :: b1 :: b2 :: b3 :: rest)
  = N.lor (N.shiftl (N.land b0 0x07) 18)
      (N.lor (N.shiftl (N.land b1 0x3F) 12)
         (N.lor (N.shiftl (N.land b2 0x3F) 6) (N.land b3 0x3F)))
      :: utf8_decode rest.
Proof.
  intros H0 H1 H2 H3 H4 H5 H6. cbn [utf8_decode].
  by rewrite H0, H1, H2, H3, H4, H5, H6.
Qed.

(** Decoding undoes the encoding of one code point, whatever bytes
    follow. *)
Lemma utf8_decode_one (c : N) (rest : list N) :
  c < 0x110000 →
  utf8_decode (utf8_of_code_point c ++ rest) = c :: utf8_decode rest.
Proof.
  intros Hmax. unfold utf8_of_code_point.
  destruct (N.ltb_spec c 0x80) as [H1 | H1].
  { cbn [app]. apply decode1. by apply N.ltb_lt. }
  destruct (N.ltb_spec c 0x800) as [H2 | H2].
  { cbn [app].
    destruct (lead2_facts (N.shiftr c 6)) as (F0 & F1 & F2);
      [apply shiftr_lt; lia |].
    destruct (continuation_facts (N.land c 0x3F)) as (G0 & G1);
      [apply low6_lt |].
    rewrite decode2, F2, G1 by done. f_equal.
    rewrite lor_shiftl_small by apply low6_lt. apply split6. }
  destruct (N.ltb_spec c 0x10000) as [H3 | H3].
  { cbn [app].
    destruct (lead3_facts (N.shiftr c 12)) as (F0 & F1 & F2 & F3);
      [apply shiftr_lt; lia |].
    destruct (continuation_facts (N.land (N.shiftr c 6) 0x3F)) as (G0 & G1);
      [apply low6_lt |].
    destruct (continuation_facts (N.land c 0x3F)) as (K0 & K1);
      [apply low6_lt |].
    rewrite decode3, F3, G1, K1 by done. f_equal.
    rewrite (lor_shiftl_small _ (N.land c 0x3F) 6) by apply low6_lt.
    rewrite lor_shiftl_small.
    - pose proof (split6 c) as E0.
      pose proof (split6 (N.shiftr c 6)) as E1.
      rewrite N.shiftr_shiftr in E1. change (6 + 6) with 12 in E1.
      change (2 ^ 12) with 4096. change (2 ^ 6) with 64 in *.
      revert E0 E1.
      generalize (N.land c 0x3F) (N.land (N.shiftr c 6) 0x3F)
        (N.shiftr c 6) (N.shiftr c 12).
      intros q0 q1 s1 s2 E0 E1. lia.
    - pose proof (low6_lt (N.shiftr c 6)). pose proof (low6_lt c).
      change (2 ^ 12) with 4096. change (2 ^ 6) with 64. lia. }
  cbn [app].
  destruct (lead4_facts (N.shiftr c 18)) as (F0 & F1 & F2 & F3 & F4);
    [apply shiftr_lt; lia |].
  destruct (continuation_facts (N.land (N.shiftr c 12) 0x3F)) as (G0 & G1);
    [apply low6_lt |].
  destruct (continuation_facts (N.land (N.shiftr c 6) 0x3F)) as (K0 & K1);
    [apply low6_lt |].
  destruct (continuation_facts (N.land c 0x3F)) as (L0 & L1);
    [apply low6_lt |].
  rewrite decode4, F4, G1, K1, L1 by done. f_equal.
  pose proof (low6_lt (N.shiftr c 12)) as B2.
  pose proof (low6_lt (N.shiftr c 6)) as B1.
  pose proof (low6_lt c) as B0.
  rewrite (lor_shiftl_small _ (N.land c 0x3F) 6) by done.
  rewrite (lor_shiftl_small _ _ 12)
    by (change (2 ^ 12) with 4096; change (2 ^ 6) with 64; lia).
  rewrite lor_shiftl_small
    by (change (2 ^ 18) with 262144; change (2 ^ 12) with 4096;
        change (2 ^ 6) with 64; lia).
  pose proof (split6 c) as E0.
  pose proof (split6 (N.shiftr c 6)) as E1.
  pose proof (split6 (N.shiftr c 12)) as E2.
  rewrite N.shiftr_shiftr in E1, E2.
  change (6 + 6) with 12 in E1. change (12 + 6) with 18 in E2.
  change (2 ^ 18) with 262144. change (2 ^ 12) with 4096.
  change (2 ^ 6) with 64 in *.
  revert E0 E1 E2.
  generalize (N.land c 0x3F) (N.land (N.shiftr c 6) 0x3F)
    (N.land (N.shiftr c 12) 0x3F) (N.shiftr c 6) (N.shiftr c 12)
    (N.shiftr c 18).
  intros q0 q1 q2 s1 s2 s3 E0 E1 E2. lia.
Qed.

Lemma utf8_decode_concat (cs : list N) :
  Forall (λ c, c < 0x110000) cs →
  utf8_decode (List.concat (List.map utf8_of_code_point cs)) = cs.
Proof.
  induction 1 as [| c cs Hc Hcs IH]; [done |].
  cbn [List.map List.concat]. by rewrite utf8_decode_one, IH.
Qed.

Lemma scalar_value_bound (c : N) : c < 0x110000 → scalar_value c < 0x110000.
Proof.
  unfold scalar_value.
  by destruct (is_high_surrogate c || is_low_surrogate c).
Qed.

Lemma combine_surrogates_bound (hi lo : N) :
  is_high_surrogate hi = true → is_low_surrogate lo = true →
  combine_surrogates hi lo < 0x110000.
Proof.
  unfold is_high_surrogate, is_low_surrogate, combine_surrogates.
  rewrite !andb_true_iff, !N.leb_le. lia.
Qed.

(** A string of 16-bit code units has code points up to U+10FFFF. *)
Lemma code_points_bound (s : JSString) :
  Forall (λ u, u < 0x10000) s → Forall (λ c, c < 0x110000) (code_points s).
Proof.
  remember (length s) as n eqn:Hn. revert s Hn.
  induction n as [n IH] using lt_wf_ind. intros s Hn Hunits.
  destruct s as [| hi rest]; [constructor |].
  apply Forall_cons in Hunits as [Hhi Hrest]. cbn [code_points].
  assert (Hstep : Forall (λ c, c < 0x110000) (hi :: code_points rest)).
  { constructor; [lia |]. apply (IH (length rest)); [subst n; cbn; lia | done ..]. }
  destruct (is_high_surrogate hi) eqn:Hsur; [| done].
  destruct rest as [| lo rest']; [constructor; [lia | constructor] |].
  destruct (is_low_surrogate lo) eqn:Hlow; [| done].
  apply Forall_cons in Hrest as [Hlo Hrest'].
  constructor; [by apply combine_surrogates_bound |].
  apply (IH (length rest')); [subst n; cbn; lia | done ..].
Qed.

(** The bytes that [encode] produces decode to the scalar values of the
    string, in order. *)
Lemma utf8_decode_encode (s : JSString) :
  Forall (λ u, u < 0x10000) s →
  utf8_decode (encode s) = List.map scalar_value (code_points s).
Proof.
  intros Hunits. unfold encode.
  rewrite <- (List.map_map scalar_value utf8_of_code_point).
  apply utf8_decode_concat.
  apply List.Forall_map.
  eapply Forall_impl; [by apply code_points_bound |].
  intros c Hc. by apply scalar_value_bound.
Qed.

Lemma take_byteLength (bytes : list N) :
  take (N.to_nat (byteLength bytes)) bytes = bytes.
Proof. unfold byteLength. rewrite Nat2N.id. apply firstn_all. Qed.

End Utf8.

(** ** Bytes and code units *)

Section Encoding.

Lemma combine_surrogates_ge (hi lo : N) :
  (0x10000 ≤ combine_surrogates hi lo)%N.
Proof. unfold combine_surrogates. lia. Qed.

Lemma scalar_value_above (c : N) :
  (0xE000 ≤ c)%N → scalar_value c = c.
Proof.
  intros Hc. unfold scalar_value, is_high_surrogate, is_low_surrogate.
  replace (c <=? 0xDBFF)%N with false by (symmetry; apply N.leb_gt; lia).
  replace (c <=? 0xDFFF)%N with false by (symmetry; apply N.leb_gt; lia).
  by rewrite !andb_false_r.
Qed.

Lemma scalar_value_below (c : N) :
  (c < 0xD800)%N → scalar_value c = c.
Proof.
  intros Hc. unfold scalar_value, is_high_surrogate, is_low_surrogate.
  replace (0xD800 <=? c)%N with false by (symmetry; apply N.leb_gt; lia).
  replace (0xDC00 <=? c)%N with false by (symmetry; apply N.leb_gt; lia).
  done.
Qed.

Lemma scalar_value_cases (c : N) :
  (is_surrogate c = false ∧ scalar_value c = c)
  ∨ (is_surrogate c = true ∧ scalar_value c = 0xFFFD%N
     ∧ (0xD800 ≤ c ≤ 0xDFFF)%N).
Proof.
  unfold scalar_value, is_surrogate.
  destruct (is_high_surrogate c || is_low_surrogate c) eqn:Hsur; [| by left].
  right. split; [done |]. split; [done |].
  unfold is_high_surrogate, is_low_surrogate in Hsur.
  apply orb_true_iff in Hsur as [H | H];
    apply andb_true_iff in H as [H1 H2];
    apply N.leb_le in H1, H2; lia.
Qed.

Lemma encode_nil : encode [] = [].
Proof. reflexivity. Qed.

Lemma encode_single (hi : N) (rest : JSString) :
  leadsPair hi rest = false →
  encode (hi :: rest) = utf8_of_code_point (scalar_value hi) ++ encode rest.
Proof.
  unfold leadsPair, encode. cbn [code_points].
  destruct (is_high_surrogate hi); [| done].
  destruct rest as [| lo rest]; [done |].
  by destruct (is_low_surrogate lo).
Qed.

Lemma encode_pair (hi lo : N) (rest : JSString) :
  leadsPair hi (lo :: rest) = true →
  encode (hi :: lo :: rest)
  = utf8_of_code_point (combine_surrogates hi lo) ++ encode rest.
Proof.
  unfold leadsPair, encode. cbn [code_points].
  intros [-> ->]%andb_true_iff. cbn [List.map List.concat].
  rewrite scalar_value_above; [done |].
  pose proof (combine_surrogates_ge hi lo). lia.
Qed.

(** Induction over a string the way the string iterator reads it: one
    code unit at a time, or a surrogate pair at a time. *)
Lemma jsstring_pairs_ind (P : JSString → Prop) :
  P [] →
  (∀ hi rest, leadsPair hi rest = false → P rest → P (hi :: rest)) →
  (∀ hi lo rest, leadsPair hi (lo :: rest) = true → P rest →
                 P (hi :: lo :: rest)) →
  ∀ s, P s.
Proof.
  intros Hnil Hone Htwo s.
  remember (length s) as n eqn:Hn. revert s Hn.
  induction n as [n IH] using lt_wf_ind. intros s Hn.
  destruct s as [| hi rest]; [done |].
  destruct (leadsPair hi rest) eqn:Hlead.
  - destruct rest as [| lo rest'].
    { unfold leadsPair in Hlead. by rewrite andb_false_r in Hlead. }
    apply Htwo; [done |]. apply (IH (length rest')); [subst n; cbn; lia | done].
  - apply Hone; [done |]. apply (IH (length rest)); [subst n; cbn; lia | done].
Qed.

Lemma utf8_length (c : N) :
  length (utf8_of_code_point c)
  = if (c <? 0x80)%N then 1
    else if (c <? 0x800)%N then 2
    else if (c <? 0x10000)%N then 3 else 4.
Proof.
  unfold utf8_of_code_point.
  by destruct (c <? 0x80)%N, (c <? 0x800)%N, (c <? 0x10000)%N.
Qed.

Lemma utf8_length_pair (hi lo : N) :
  length (utf8_of_code_point (combine_surrogates hi lo)) = 4.
Proof.
  rewrite utf8_length. pose proof (combine_surrogates_ge hi lo) as Hge.
  destruct (N.ltb_spec (combine_surrogates hi lo) 0x80); [lia |].
  destruct (N.ltb_spec (combine_surrogates hi lo) 0x800); [lia |].
  destruct (N.ltb_spec (combine_surrogates hi lo) 0x10000); [lia | done].
Qed.

Lemma utf8_length_unit (u : N) :
  1 ≤ length (utf8_of_code_point (scalar_value u))
  ∧ ((0x80 ≤ u)%N → 2 ≤ length (utf8_of_code_point (scalar_value u)))
  ∧ ((u < 0x10000)%N → length (utf8_of_code_point (scalar_value u)) ≤ 3).
Proof.
  rewrite utf8_length.
  destruct (scalar_value_cases u) as [[_ ->] | (_ & -> & Hrange)].
  - destruct (N.ltb_spec u 0x80), (N.ltb_spec u 0x800),
      (N.ltb_spec u 0x10000); repeat split; intros; lia.
  - cbn. repeat split; intros; lia.
Qed.

(** No code unit is lost: the encoding has at least one byte for each
    code unit. *)
Lemma encode_length_ge (s : JSString) : length s ≤ length (encode s).
Proof.
  induction s as [| hi rest Hlead IH | hi lo rest Hlead IH]
    using jsstring_pairs_ind; [done | |].
  - rewrite encode_single, length_app by done.
    destruct (utf8_length_unit hi) as [Hone _]. cbn [length]. lia.
  - rewrite encode_pair, length_app, utf8_length_pair by done.
    cbn [length]. lia.
Qed.

Lemma encode_length_le (s : JSString) :
  Forall (λ u, (u < 0x10000)%N) s → length (encode s) ≤ 3 * length s.
Proof.
  induction s as [| hi rest Hlead IH | hi lo rest Hlead IH]
    using jsstring_pairs_ind; intros Hunits; [cbn; lia | |].
  - apply Forall_cons in Hunits as [Hhi Hrest].
    rewrite encode_single, length_app by done.
    destruct (utf8_length_unit hi) as (_ & _ & Hthree).
    specialize (IH Hrest). specialize (Hthree Hhi). cbn [length]. lia.
  - apply Forall_cons in Hunits as [_ [_ Hrest]%Forall_cons].
    rewrite encode_pair, length_app, utf8_length_pair by done.
    specialize (IH Hrest). cbn [length]. lia.
Qed.

(** ASCII text is passed as it is. *)
Lemma encode_ascii (s : JSString) :
  Forall (λ u, (u < 0x80)%N) s → encode s = s.
Proof.
  induction 1 as [| u rest Hu Hrest IH]; [done |].
  rewrite encode_single.
  - rewrite scalar_value_below by lia. unfold utf8_of_code_point.
    apply N.ltb_lt in Hu. rewrite Hu. cbn [app]. by rewrite IH.
  - unfold leadsPair, is_high_surrogate.
    replace (0xD800 <=? u)%N with false by (symmetry; apply N.leb_gt; lia).
    done.
Qed.

Lemma encode_length_eq_ascii (s : JSString) :
  length (encode s) = length s → Forall (λ u, (u < 0x80)%N) s.
Proof.
  induction s as [| hi rest Hlead IH | hi lo rest Hlead IH]
    using jsstring_pairs_ind; intros Hlen; [constructor | |].
  - rewrite encode_single, length_app in Hlen by done.
    pose proof (encode_length_ge rest) as Hge.
    destruct (utf8_length_unit hi) as (Hone & Htwo & _).
    cbn [length] in Hlen.
    destruct (N.lt_ge_cases hi 0x80) as [Hascii | Hwide].
    + constructor; [done |]. apply IH. lia.
    + specialize (Htwo Hwide). lia.
  - rewrite encode_pair, length_app, utf8_length_pair in Hlen by done.
    pose proof (encode_length_ge rest) as Hge. cbn [length] in Hlen. lia.
Qed.

Lemma byte_facts (q : N) :
  ((q < 64)%N → (N.lor 0x80 q < 256)%N)
  ∧ ((q < 32)%N → (N.lor 0xC0 q < 256)%N)
  ∧ ((q < 16)%N → (N.lor 0xE0 q < 256)%N)
  ∧ ((q < 8)%N → (N.lor 0xF0 q < 256)%N).
Proof.
  repeat split; intros Hq; apply N.ltb_lt.
  - exact (below_forall 64 (λ q, N.lor 0x80 q <? 256)%N eq_refl q Hq).
  - exact (below_forall 32 (λ q, N.lor 0xC0 q <? 256)%N eq_refl q Hq).
  - exact (below_forall 16 (λ q, N.lor 0xE0 q <? 256)%N eq_refl q Hq).
  - exact (below_forall 8 (λ q, N.lor 0xF0 q <? 256)%N eq_refl q Hq).
Qed.

Lemma utf8_bytes (c : N) :
  (c < 0x110000)%N → Forall (λ b, (b < 256)%N) (utf8_of_code_point c).
Proof.
  intros Hmax. unfold utf8_of_code_point.
  pose proof (λ q, proj1 (byte_facts q)) as Hcont.
  destruct (N.ltb_spec c 0x80); [repeat constructor; lia |].
  destruct (N.ltb_spec c 0x800).
  { repeat constructor; [| apply Hcont, low6_lt].
    apply byte_facts, shiftr_lt. lia. }
  destruct (N.ltb_spec c 0x10000).
  { repeat constructor; [| apply Hcont, low6_lt ..].
    apply byte_facts, shiftr_lt. lia. }
  repeat constructor; [| apply Hcont, low6_lt ..].
  apply byte_facts, shiftr_lt. lia.
Qed.

Lemma encode_bytes (s : JSString) :
  Forall (λ u, (u < 0x10000)%N) s → Forall (λ b, (b < 256)%N) (encode s).
Proof.
  intros Hunits. unfold encode. apply Forall_concat, List.Forall_map.
  eapply Forall_impl; [by apply code_points_bound |].
  intros c Hc. cbv beta. by apply utf8_bytes, scalar_value_bound.
Qed.

End Encoding.

(** ** [encode] against the standard *)

Section WellFormed.

Local Open Scope N_scope.

Lemma lor_add :
  (∀ q, q < 32 → N.lor 0xC0 q = 0xC0 + q)
  ∧ (∀ q, q < 16 → N.lor 0xE0 q = 0xE0 + q)
  ∧ (∀ q, q < 8 → N.lor 0xF0 q = 0xF0 + q)
  ∧ (∀ r, r < 64 → N.lor 0x80 r = 0x80 + r).
Proof.
  repeat split; intros q Hq; apply N.eqb_eq.
  - exact (below_forall 32 (λ q, N.lor 0xC0 q =? 0xC0 + q) eq_refl q Hq).
  - exact (below_forall 16 (λ q, N.lor 0xE0 q =? 0xE0 + q) eq_refl q Hq).
  - exact (below_forall 8 (λ q, N.lor 0xF0 q =? 0xF0 + q) eq_refl q Hq).
  - exact (below_forall 64 (λ q, N.lor 0x80 q =? 0x80 + q) eq_refl q Hq).
Qed.

Lemma in_range_spec (lo hi b : N) :
  in_range lo hi b = true ↔ lo ≤ b ≤ hi.
Proof. unfold in_range. rewrite andb_true_iff, !N.leb_le. lia. Qed.

Lemma in_range_outside (lo hi b : N) :
  b < lo ∨ hi < b → in_range lo hi b = false.
Proof.
  intros H. destruct (in_range lo hi b) eqn:E; [| done].
  apply in_range_spec in E. lia.
Qed.

Lemma is_trailing_byte_add (r : N) :
  r < 64 → is_trailing_byte (0x80 + r) = true.
Proof. intros Hr. apply in_range_spec. lia. Qed.

(** The second byte after the lead [b0], when its payload [m] avoids the
    ranges the lead rules out. *)
Lemma is_second_byte_add (b0 m : N) :
  m < 64 →
  (b0 = 0xE0 → 0x20 ≤ m) → (b0 = 0xED → m < 0x20) →
  (b0 = 0xF0 → 0x10 ≤ m) → (b0 = 0xF4 → m < 0x10) →
  is_second_byte b0 (0x80 + m) = true.
Proof.
  intros Hm HE0 HED HF0 HF4. unfold is_second_byte, second_byte_range.
  destruct (N.eqb_spec b0 0xE0) as [E | _];
    [apply in_range_spec; cbn [fst snd]; specialize (HE0 E); lia |].
  destruct (N.eqb_spec b0 0xED) as [E | _];
    [apply in_range_spec; cbn [fst snd]; specialize (HED E); lia |].
  destruct (N.eqb_spec b0 0xF0) as [E | _];
    [apply in_range_spec; cbn [fst snd]; specialize (HF0 E); lia |].
  destruct (N.eqb_spec b0 0xF4) as [E | _];
    [apply in_range_spec; cbn [fst snd]; specialize (HF4 E); lia |].
  apply in_range_spec; cbn [fst snd]; lia.
Qed.

Lemma is_surrogate_spec (c : N) :
  is_surrogate c = false ↔ c < 0xD800 ∨ 0xDFFF < c.
Proof.
  unfold is_surrogate, is_high_surrogate, is_low_surrogate.
  rewrite orb_false_iff, !andb_false_iff, !N.leb_gt. lia.
Qed.

(** A scalar value is written as one of the sequences of the table. *)
Lemma well_formed_utf8_one (c : N) (rest : list N) :
  c < 0x110000 → is_surrogate c = false →
  well_formed_utf8 (utf8_of_code_point c ++ rest) = well_formed_utf8 rest.
Proof.
  intros Hmax Hscalar. apply is_surrogate_spec in Hscalar.
  destruct lor_add as (HC0 & HE0 & HF0 & H80).
  unfold utf8_of_code_point.
  pose proof (low6_lt c) as B0.
  pose proof (low6_lt (N.shiftr c 6)) as B1.
  pose proof (low6_lt (N.shiftr c 12)) as B2.
  pose proof (split6 c) as E0.
  pose proof (split6 (N.shiftr c 6)) as E1.
  pose proof (split6 (N.shiftr c 12)) as E2.
  rewrite N.shiftr_shiftr in E1, E2.
  change (6 + 6) with 12 in E1. change (12 + 6) with 18 in E2.
  change (2 ^ 6) with 64 in *.
  destruct (N.ltb_spec c 0x80) as [H1 | H1].
  { cbn [app well_formed_utf8].
    by replace (c <=? 0x7F) with true by (symmetry; apply N.leb_le; lia). }
  destruct (N.ltb_spec c 0x800) as [H2 | H2].
  { assert (Hq : N.shiftr c 6 < 32) by (apply shiftr_lt; lia).
    rewrite (HC0 _ Hq), (H80 _ B0). cbn [app well_formed_utf8].
    revert E0 Hq B0. generalize (N.land c 0x3F) (N.shiftr c 6).
    intros r q E0 Hq B0.
    replace (0xC0 + q <=? 0x7F) with false by (symmetry; apply N.leb_gt; lia).
    replace (in_range 0xC2 0xDF (0xC0 + q)) with true
      by (symmetry; apply in_range_spec; lia).
    by rewrite is_trailing_byte_add. }
  destruct (N.ltb_spec c 0x10000) as [H3 | H3].
  { assert (Hq : N.shiftr c 12 < 16) by (apply shiftr_lt; lia).
    rewrite (HE0 _ Hq), (H80 _ B0), (H80 _ B1). cbn [app well_formed_utf8].
    revert E0 E1 Hq B0 B1.
    generalize (N.land c 0x3F) (N.land (N.shiftr c 6) 0x3F)
      (N.shiftr c 6) (N.shiftr c 12).
    intros r m s1 q E0 E1 Hq B0 B1.
    replace (0xE0 + q <=? 0x7F) with false by (symmetry; apply N.leb_gt; lia).
    rewrite (in_range_outside 0xC2 0xDF) by lia.
    replace (in_range 0xE0 0xEF (0xE0 + q)) with true
      by (symmetry; apply in_range_spec; lia).
    rewrite is_second_byte_add, is_trailing_byte_add by lia. done. }
  assert (Hq : N.shiftr c 18 < 8) by (apply shiftr_lt; lia).
  rewrite (HF0 _ Hq), (H80 _ B0), (H80 _ B1), (H80 _ B2).
  cbn [app well_formed_utf8].
  revert E0 E1 E2 Hq B0 B1 B2.
  generalize (N.land c 0x3F) (N.land (N.shiftr c 6) 0x3F)
    (N.land (N.shiftr c 12) 0x3F) (N.shiftr c 6) (N.shiftr c 12)
    (N.shiftr c 18).
  intros r m1 m2 s1 s2 q E0 E1 E2 Hq B0 B1 B2.
  replace (0xF0 + q <=? 0x7F) with false by (symmetry; apply N.leb_gt; lia).
  rewrite (in_range_outside 0xC2 0xDF) by lia.
  rewrite (in_range_outside 0xE0 0xEF) by lia.
  replace (in_range 0xF0 0xF4 (0xF0 + q)) with true
    by (symmetry; apply in_range_spec; lia).
  rewrite is_second_byte_add, !is_trailing_byte_add by lia. done.
Qed.

Lemma well_formed_utf8_concat (cs : list N) :
  Forall (λ c, c < 0x110000 ∧ is_surrogate c = false) cs →
  well_formed_utf8 (List.concat (List.map utf8_of_code_point cs)) = true.
Proof.
  induction 1 as [| c cs [Hc Hs] Hcs IH]; [done |].
  cbn [List.map List.concat]. by rewrite well_formed_utf8_one.
Qed.

Lemma textValues_scalar (items : list TextItem) :
  wellFormedText items = true →
  Forall (λ c, c < 0x110000 ∧ is_surrogate c = false) (textValues items).
Proof.
  induction items as [| item items IH]; intros Hwf; [constructor |].
  destruct item as [c | u]; cbn [wellFormedText textValues List.map] in *.
  - apply andb_true_iff in Hwf as [[Hc Hs]%andb_true_iff Hrest].
    constructor; [| by apply IH].
    split; [by apply N.ltb_lt | by apply negb_true_iff].
  - apply andb_true_iff in Hwf as [_ Hrest].
    constructor; [| by apply IH]. split; [lia | done].
Qed.

Lemma high_not_low (u : N) :
  is_high_surrogate u = true → is_low_surrogate u = false.
Proof.
  unfold is_high_surrogate, is_low_surrogate.
  rewrite andb_true_iff, andb_false_iff, !N.leb_le, !N.leb_gt. lia.
Qed.

Lemma scalar_value_scalar (c : N) : is_surrogate c = false → scalar_value c = c.
Proof. unfold is_surrogate, scalar_value. by intros ->. Qed.

Lemma scalar_value_surrogate (u : N) :
  is_surrogate u = true → scalar_value u = 0xFFFD.
Proof. unfold is_surrogate, scalar_value. by intros ->. Qed.

(** The first code unit of a text is a low surrogate only if the text
    starts with a lone low surrogate. *)
Lemma textUnits_head (items : list TextItem) :
  wellFormedText items = true →
  match textUnits items with
  | lo :: _ => is_low_surrogate lo
  | [] => false
  end
  = match items with
    | LoneSurrogate lo :: _ => is_low_surrogate lo
    | _ => false
    end.
Proof.
  destruct items as [| [c | u] items]; [done | | done].
  cbn [wellFormedText textUnits]. intros Hwf.
  apply andb_true_iff in Hwf as [[Hc Hs]%andb_true_iff _].
  apply N.ltb_lt in Hc. apply negb_true_iff in Hs.
  unfold utf16_of_code_point. destruct (N.ltb_spec c 0x10000) as [Hb | Hb].
  - cbn [app]. unfold is_surrogate in Hs. by apply orb_false_iff in Hs as [_ ->].
  - cbn [app]. by apply high_not_low, high_surrogate_of_pair.
Qed.

(** [encode] writes the scalar values of the text, one after the other. *)
Lemma encode_textUnits (items : list TextItem) :
  wellFormedText items = true →
  encode (textUnits items)
  = List.concat (List.map utf8_of_code_point (textValues items)).
Proof.
  induction items as [| item items IH]; intros Hwf; [done |].
  pose proof (textUnits_head items) as Hhead.
  destruct item as [c | u];
    cbn [wellFormedText textUnits textValues List.map List.concat] in *.
  - apply andb_true_iff in Hwf as [[Hc Hs]%andb_true_iff Hrest].
    apply N.ltb_lt in Hc. apply negb_true_iff in Hs.
    fold (textValues items). rewrite <- IH by done.
    unfold utf16_of_code_point. destruct (N.ltb_spec c 0x10000) as [Hb | Hb].
    + cbn [app]. rewrite encode_single, scalar_value_scalar; [done .. |].
      unfold leadsPair. unfold is_surrogate in Hs.
      by apply orb_false_iff in Hs as [-> _].
    + cbn [app]. rewrite encode_pair, combine_surrogates_of_pair; [done .. |].
      unfold leadsPair.
      by rewrite high_surrogate_of_pair, low_surrogate_of_pair.
  - apply andb_true_iff in Hwf as [[Hs Hpair]%andb_true_iff Hrest].
    apply negb_true_iff in Hpair.
    fold (textValues items). rewrite <- IH by done.
    rewrite encode_single, scalar_value_surrogate; [done .. |].
    unfold leadsPair. by rewrite Hhead.
Qed.

Lemma utf16_of_combine_surrogates (hi lo : N) :
  is_high_surrogate hi = true → is_low_surrogate lo = true →
  utf16_of_code_point (combine_surrogates hi lo) = [hi; lo].
Proof.
  unfold is_high_surrogate, is_low_surrogate.
  rewrite !andb_true_iff, !N.leb_le. intros [Hh1 Hh2] [Hl1 Hl2].
  unfold utf16_of_code_point, combine_surrogates.
  replace ((hi - 0xD800) * 0x400 + (lo - 0xDC00) + 0x10000 <? 0x10000)
    with false by (symmetry; apply N.ltb_ge; lia).
  replace ((hi - 0xD800) * 0x400 + (lo - 0xDC00) + 0x10000 - 0x10000)
    with ((lo - 0xDC00) + (hi - 0xD800) * 0x400) by lia.
  rewrite N.div_add, N.Div0.mod_add by done.
  rewrite N.div_small, N.mod_small by lia.
  f_equal; [lia | f_equal; lia].
Qed.

(** Every string of 16-bit code units is the text of exactly such a
    sequence. *)
Lemma textUnits_onto (text : JSString) :
  Forall (λ u, u < 0x10000) text →
  ∃ items, wellFormedText items = true ∧ textUnits items = text.
Proof.
  induction text as [| hi rest Hlead IH | hi lo rest Hlead IH]
    using jsstring_pairs_ind; intros Hunits.
  - by exists [].
  - apply Forall_cons in Hunits as [Hhi Hrest].
    destruct (IH Hrest) as (items & Hwf & <-).
    pose proof (textUnits_head items Hwf) as Hhead.
    destruct (is_surrogate hi) eqn:Hs.
    + exists (LoneSurrogate hi :: items). split; [| done].
      cbn [wellFormedText]. rewrite Hs, Hwf, <- Hhead.
      fold (leadsPair hi (textUnits items)). by rewrite Hlead.
    + exists (ScalarValue hi :: items). cbn [wellFormedText textUnits].
      rewrite Hs, Hwf. unfold utf16_of_code_point.
      replace (hi <? 0x110000) with true by (symmetry; apply N.ltb_lt; lia).
      by replace (hi <? 0x10000) with true by (symmetry; by apply N.ltb_lt).
  - apply Forall_cons in Hunits as [_ [_ Hrest]%Forall_cons].
    destruct (IH Hrest) as (items & Hwf & <-).
    unfold leadsPair in Hlead. apply andb_true_iff in Hlead as [Hh Hl].
    exists (ScalarValue (combine_surrogates hi lo) :: items).
    cbn [wellFormedText textUnits].
    rewrite utf16_of_combine_surrogates by done. split; [| done].
    rewrite Hwf, andb_true_r. apply andb_true_iff. split.
    + apply N.ltb_lt. by apply combine_surrogates_bound.
    + apply negb_true_iff, is_surrogate_spec.
      pose proof (combine_surrogates_ge hi lo). lia.
Qed.

End WellFormed.

(** ** Drawing text *)

(** C6.  [bufferDrawText] makes one native call and returns without an
    error.  The bytes it passes are the UTF-8 encoding of the text: for
    the scalar values the text stands for, a surrogate without its partner
    counting as U+FFFD, they are a well-formed UTF-8 byte sequence of the
    Unicode standard, and they decode to these scalar values; every
    string of 16-bit code units is such a text.  The length it passes is
    the number of these bytes; an omitted bgColor arrives as the null
    pointer and a given one as its buffer; omitted attributes arrive as 0.
    On the engine, a call without bgColor leaves the background array of
    the buffer as it was. *)
Theorem bufferDrawText_utf8_and_defaults {St} (this : FFIRenderLib St)
    (buffer : Pointer) (text : JSString) (x y : N) (color : RGBA)
    (bgColor : option RGBA) (attributes : option N) (s : St) :
  (∃ (textBytes : list N) (textLength : N) (bg : option (list Q)) (attrs : N),
     bufferDrawText this buffer text x y color bgColor attributes s
       = (Ok tt, sym_bufferDrawText (opentui this) buffer textBytes textLength
                   x y (RGBA.buffer color) bg attrs s)
     ∧ textBytes = encode text
     ∧ textLength = N.of_nat (length textBytes)
     ∧ (∀ items, wellFormedText items = true → textUnits items = text →
          well_formed_utf8 textBytes = true
          ∧ utf8_decode textBytes = textValues items)
     ∧ (Forall (λ u, (u < 0x10000)%N) text →
        ∃ items, wellFormedText items = true ∧ textUnits items = text)
     ∧ (bgColor = None → bg = None)
     ∧ (∀ c, bgColor = Some c → bg = Some (RGBA.buffer c))
     ∧ passedAs attributes attrs)
  ∧ (∀ (base : Symbols Engine.State) (e : Engine.State) (b : Engine.CellBuffer),
       Engine.buffers e !! buffer = Some b →
       ∃ b', Engine.buffers
               (snd (bufferDrawText (onEngine base) buffer text x y color None
                       attributes e)) !! buffer = Some b'
             ∧ Engine.bgs b' = Engine.bgs b).
Proof.
  split.
  - exists (encode text), (byteLength (encode text)),
      (RGBA.buffer <$> bgColor), (attributes ?? 0%N).
    split; [by destruct bgColor |].
    split; [done |]. split; [done |].
    split.
    { intros items Hwf <-. rewrite encode_textUnits by done.
      pose proof (textValues_scalar items Hwf) as Hscalar.
      split; [by apply well_formed_utf8_concat |].
      apply utf8_decode_concat.
      eapply Forall_impl; [exact Hscalar |]. by intros c [Hc _]. }
    split; [apply textUnits_onto |].
    split; [by intros -> |].
    split; [by intros c -> | apply passedAs_nullish].
  - intros base e b Hb. unfold bufferDrawText, exec. cbn.
    unfold Engine.updateBuffer. rewrite Hb. cbn.
    eexists. split; [apply lookup_insert_eq |].
    apply drawText_keeps_bgs.
Qed.

(** C6 at a text of a high surrogate without its partner and the letter
    A: the four bytes EF BF BD 41 are passed, which are well formed and
    decode to U+FFFD and U+0041. *)
Lemma bufferDrawText_utf8_and_defaults_witness :
  encode [0xD83D%N; 0x41%N] = [0xEF%N; 0xBF%N; 0xBD%N; 0x41%N]
  ∧ well_formed_utf8 (encode [0xD83D%N; 0x41%N]) = true
  ∧ utf8_decode (encode [0xD83D%N; 0x41%N]) = [0xFFFD%N; 0x41%N]
  ∧ bufferDrawText soundLibrary 7%N [0xD83D%N; 0x41%N] 0 0
      (RGBA.mk [1%Q; 1%Q; 1%Q; 1%Q]) None None tt
    = (Ok tt, tt).
Proof.
  destruct (bufferDrawText_utf8_and_defaults soundLibrary 7%N
              [0xD83D%N; 0x41%N] 0 0
              (RGBA.mk [1%Q; 1%Q; 1%Q; 1%Q]) None None tt)
    as [(bytes & len & bg & attrs & Hcall & -> & _ & Hstandard & _) _].
  destruct (Hstandard [LoneSurrogate 0xD83D%N; ScalarValue 0x41%N]
              eq_refl eq_refl) as [Hwf Hdecode].
  split; [reflexivity |]. split; [exact Hwf |].
  split; [exact Hdecode | exact Hcall].
Defined.

(** ** Out-of-bounds writes through the wrapper *)

(** C7.  On the engine, for a buffer [b]: a write of one cell at a
    coordinate outside [0,width)×[0,height), by setCellWithAlphaBlending,
    by drawText or by fillRect, returns the buffer as it was.  Through the
    wrapper, [bufferSetCellWithAlphaBlending], [bufferDrawText] and
    [bufferFillRect] at a position right of or below the buffer return
    without an error and leave the whole engine state as it was; in
    general [bufferDrawText] has the effect of drawing only the code
    points that fit before the right edge, and [bufferFillRect] that of
    filling only the cells of the rectangle inside the bounds; none of the
    three ever raises an error. *)
Theorem out_of_bounds_writes_change_nothing (base : Symbols Engine.State)
    (buffer : Pointer) (e : Engine.State) (b : Engine.CellBuffer) :
  let this := onEngine base in
  Engine.buffers e !! buffer = Some b →
  (∀ x y : Z, Engine.inBounds b x y = false →
     (∀ codepoint fg bg attrs,
        Engine.setCellWithAlphaBlending b x y codepoint fg bg attrs = b)
     ∧ (∀ codepoint fg bg attrs,
          Engine.drawTextCell b x y codepoint fg bg attrs = b)
     ∧ (∀ color, Engine.fillCell b color (x, y) = b))
  ∧ (∀ x y : N, (Engine.width b ≤ x ∨ Engine.height b ≤ y)%N →
       (∀ char color bgColor attrs,
          bufferSetCellWithAlphaBlending this buffer x y char color bgColor
            attrs e = (Ok tt, e))
       ∧ (∀ text color bgColor attrs,
            bufferDrawText this buffer text x y color bgColor attrs e
            = (Ok tt, e))
       ∧ (∀ w h color,
            bufferFillRect this buffer x y w h color e = (Ok tt, e)))
  ∧ (∀ (x y : N) text color bgColor attrs,
       bufferDrawText this buffer text x y color bgColor attrs e
       = (Ok tt,
          Engine.updateBuffer
            (λ b0, Engine.drawText b0
                     (take (N.to_nat (Engine.width b0 - x))
                        (utf8_decode (encode text)))
                     (Z.of_N x) (Z.of_N y)
                     (Engine.color_of (RGBA.buffer color))
                     (Engine.color_of <$> (RGBA.buffer <$> bgColor))
                     (attrs ?? 0%N))
            buffer e))
  ∧ (∀ (x y w h : N) color,
       bufferFillRect this buffer x y w h color e
       = (Ok tt,
          Engine.updateBuffer
            (λ b0, foldl (λ acc cell,
                            Engine.fillCell acc
                              (Engine.color_of (RGBA.buffer color)) cell)
                     b0
                     (List.filter (λ cell, Engine.inBounds b0 cell.1 cell.2)
                        (Engine.rectCells (Z.of_N x) (Z.of_N y)
                           (Z.of_N w) (Z.of_N h))))
            buffer e))
  ∧ (∀ (x y : N) char text (w h : N) color bgColor attrs attrs',
       fst (bufferSetCellWithAlphaBlending this buffer x y char color
              bgColor attrs e) = Ok tt
       ∧ fst (bufferDrawText this buffer text x y color (Some bgColor) attrs' e)
         = Ok tt
       ∧ fst (bufferFillRect this buffer x y w h color e) = Ok tt).
Proof.
  intros this Hb.
  split; [| split; [| split; [| split]]].
  - intros x y Hout. split; [| split]; intros.
    + by apply setCell_outside.
    + by apply drawTextCell_outside.
    + by apply fillCell_outside.
  - intros x y Hout.
    assert (Hcell : ∀ b0 x', Engine.buffers e !! buffer = Some b0 →
              (Z.of_N x ≤ x')%Z → Engine.inBounds b0 x' (Z.of_N y) = false).
    { intros b0 x' Hb0 Hx'. rewrite Hb in Hb0. injection Hb0 as <-.
      apply inBounds_outside. lia. }
    split; [| split]; intros.
    + unfold bufferSetCellWithAlphaBlending, exec. cbn. f_equal.
      apply updateBuffer_unchanged. intros b0 Hb0.
      apply setCell_outside, (Hcell b0 _ Hb0). lia.
    + unfold bufferDrawText, exec. cbn. f_equal.
      apply updateBuffer_unchanged. intros b0 Hb0.
      apply drawText_outside. intros x' Hx'. by apply Hcell.
    + unfold bufferFillRect, exec. cbn. f_equal.
      apply updateBuffer_unchanged. intros b0 Hb0.
      apply fillRect_outside. intros px py [Hpx Hpy]%covers_spec.
      rewrite Hb in Hb0. injection Hb0 as <-.
      apply inBounds_outside. lia.
  - intros x y text color bgColor attrs.
    unfold bufferDrawText, exec. cbn. f_equal.
    rewrite take_byteLength.
    apply updateBuffer_ext. intros b0 _.
    rewrite drawText_clip by lia.
    replace (Z.to_nat (Z.of_N (Engine.width b0) - Z.of_N x))
      with (N.to_nat (Engine.width b0 - x)) by lia.
    by destruct bgColor.
  - intros x y w h color.
    unfold bufferFillRect, exec. cbn. f_equal.
    apply updateBuffer_ext. intros b0 _. apply fillRect_inside.
  - done.
Qed.

(** C7 on a buffer of 3 by 2 cells: a cell set at (3,0), a text drawn at
    (0,2) and a rectangle filled at (5,5) leave the engine as it was. *)
Lemma out_of_bounds_writes_change_nothing_witness :
  let this := onEngine noSymbols in
  let white := RGBA.mk [1%Q; 1%Q; 1%Q; 1%Q] in
  bufferSetCellWithAlphaBlending this 7%N 3 0 (js "x") white white None
    sampleEngine = (Ok tt, sampleEngine)
  ∧ bufferDrawText this 7%N (js "hello") 0 2 white None None sampleEngine
    = (Ok tt, sampleEngine)
  ∧ bufferFillRect this 7%N 5 5 4 4 white sampleEngine = (Ok tt, sampleEngine).
Proof.
  cbv zeta.
  assert (Hb : Engine.buffers sampleEngine !! 7%N = Some blankBuffer)
    by reflexivity.
  destruct (out_of_bounds_writes_change_nothing noSymbols 7%N sampleEngine
              blankBuffer Hb) as (_ & Hout & _).
  split; [| split].
  - apply (Hout 3%N 0%N). left. cbn. lia.
  - apply (Hout 0%N 2%N). right. cbn. lia.
  - apply (Hout 5%N 5%N). left. cbn. lia.
Defined.

(** * Further properties of the binding *)

(** ** The public pointer getters *)

(** X1.  Each of [bufferGetCharPtr], [bufferGetFgPtr], [bufferGetBgPtr]
    and [bufferGetAttributesPtr] makes one native call.  It never returns
    a null pointer: when the native pointer is null (or the address 0) it
    raises its own message, and otherwise it returns the native pointer,
    which is not 0. *)
Theorem pointer_getters_never_return_null {St} (this : FFIRenderLib St)
    (kind : ArrayKind) (buffer : Pointer) (s : St) :
  let '(p, s') := symbolOf (opentui this) kind buffer s in
  (falsy p = true
   ∧ getterOf this kind buffer s = (Throw (getterFailure kind), s'))
  ∨ (∃ a, a ≠ 0%N ∧ p = Some a
          ∧ getterOf this kind buffer s = (Ok a, s')).
Proof.
  destruct kind; cbn [symbolOf getterOf getterFailure];
    unfold bufferGetCharPtr, bufferGetFgPtr, bufferGetBgPtr,
      bufferGetAttributesPtr; unfold_M; cbv zeta.
  all: match goal with
       | |- context [let '(_, _) := ?native in _] =>
           destruct native as [[a |] s']
       end; cbn [falsy address].
  all: try (left; by split).
  all: destruct (N.eqb_spec a 0) as [-> | Hne];
    [left; by split | right; by exists a].
Qed.

(** X1 at a library with arrays at 100, 200, 300 and 400, and at one
    without a character array. *)
Lemma pointer_getters_never_return_null_witness :
  bufferGetFgPtr soundLibrary 7%N tt = (Ok 200%N, tt)
  ∧ bufferGetCharPtr noCharArrayLibrary 7%N tt
    = (Throw "Failed to get char pointer", tt).
Proof.
  pose proof (pointer_getters_never_return_null soundLibrary FgArray 7%N tt)
    as Hfg.
  pose proof (pointer_getters_never_return_null noCharArrayLibrary CharArray
                7%N tt) as Hchar.
  cbn in Hfg, Hchar.
  destruct Hfg as [[Hnull _] | (a & _ & [= <-] & Hfg)]; [discriminate |].
  destruct Hchar as [[_ Hchar] | (a & _ & Hsome & _)]; [| discriminate].
  split; [exact Hfg | exact Hchar].
Defined.

(** ** The errors of the buffer methods *)



(** ** Finding and opening the library *)

(** X3.  [findLibrary] returns a path exactly when module resolution
    finds one for the platform's package and a file exists there; the
    library is asked for as "opentui" on win32 and as "libopentui"
    elsewhere.  In every other case, a failing resolution included, it
    raises the one message that names the platform and the
    architecture. *)
Theorem findLibrary_found_or_unsupported {St} (host : Host St) :
  ∃ libraryName : string,
    (platform host = "win32"%string → libraryName = "opentui"%string)
    ∧ (platform host ≠ "win32"%string → libraryName = "libopentui"%string)
    ∧ (∀ p, findLibrary host = Ok p
            ↔ require_resolve host (libraryRequest host libraryName) = Some p
              ∧ existsSync host p = true)
    ∧ (∀ msg, findLibrary host = Throw msg →
         msg = ("opentui is not supported on the current platform: "
                  +:+ platform host +:+ "-" +:+ arch host)%string).
Proof.
  exists (if String.eqb (platform host) "win32" then "opentui"%string
          else "libopentui"%string).
  split; [by intros -> |].
  split; [by destruct (String.eqb_spec (platform host) "win32") |].
  unfold findLibrary, libraryRequest, unsupported. cbv zeta.
  destruct (require_resolve host _) as [found |].
  - destruct (existsSync host found) eqn:Hexists.
    + split; [| by intros msg [= ]].
      intros p. split; [by intros [= <-] | by intros [[= <-] _]].
    + split; [| by intros msg [= <-]].
      intros p. split; [by intros [= ] | intros [[= <-] Hp]; congruence].
  - split; [| by intros msg [= <-]].
    intros p. split; [by intros [= ] | by intros [[= ] _]].
Qed.

(** X3 on a host with the packaged library and on one without. *)
Lemma findLibrary_found_or_unsupported_witness :
  findLibrary packagedHost
  = Ok "/node_modules/@opentui/core-linux-x64/libopentui.so"%string
  ∧ findLibrary bareHost
    = Throw "opentui is not supported on the current platform: linux-x64".
Proof.
  destruct (findLibrary_found_or_unsupported packagedHost)
    as (name & _ & Hname & Hfound & _).
  destruct (findLibrary_found_or_unsupported bareHost)
    as (name' & _ & _ & _ & Hmsg).
  split.
  - apply Hfound. rewrite (Hname ltac:(discriminate)). split; reflexivity.
  - rewrite (Hmsg "opentui is not supported on the current platform: linux-x64"%string
               eq_refl).
    reflexivity.
Defined.

(** X4.  A path set with [setRenderLibPath] that is not empty is opened
    as it is: the first [resolveRenderLib] succeeds exactly when [dlopen]
    opens that path, returns an instance over the symbols [dlopen] gave and
    raises [dlopen]'s error otherwise; [findLibrary] has no part in it, so
    a platform without a packaged library can still be served.  The empty
    path is treated as no path. *)
Theorem explicit_path_bypasses_discovery {St} (host : Host St) (p : string) :
  p ≠ ""%string →
  let ms := snd (setRenderLibPath p initialModuleState) in
  match dlopen host p with
  | Ok lib =>
      ∃ ms', resolveRenderLib host ms
             = (Ok {| self := 0; opentui := lib |}, ms')
             ∧ opentuiLib ms' = Some {| self := 0; opentui := lib |}
  | Throw msg => resolveRenderLib host ms = (Throw msg, ms)
  end
  ∧ fst (resolveRenderLib host
           (snd (setRenderLibPath "" (initialModuleState (St:=St)))))
    = fst (resolveRenderLib host initialModuleState).
Proof.
  intros Hp ms. split.
  - subst ms. unfold resolveRenderLib, newFFIRenderLib, getOpenTUILib,
      resolvedLibPath.
    cbn [setRenderLibPath snd opentuiLib opentuiLibPath allocated
         initialModuleState].
    apply String.eqb_neq in Hp. rewrite Hp.
    destruct (dlopen host p) as [lib | msg]; [| done].
    by eexists.
  - unfold resolveRenderLib, newFFIRenderLib, getOpenTUILib, resolvedLibPath.
    cbn [setRenderLibPath snd opentuiLib opentuiLibPath allocated
         initialModuleState String.eqb].
    destruct (findLibrary host) as [path |]; [| done].
    by destruct (dlopen host path).
Qed.

(** X4 on the host without a packaged library: the explicit path is
    opened. *)
Lemma explicit_path_bypasses_discovery_witness :
  is_ok (fst (resolveRenderLib bareHost
                (snd (setRenderLibPath "/opt/libopentui.so"
                        initialModuleState)))) = true
  ∧ is_ok (findLibrary bareHost) = false.
Proof.
  destruct (explicit_path_bypasses_discovery bareHost "/opt/libopentui.so"
              ltac:(discriminate)) as [(ms' & Hopened & _) _].
  split; [by rewrite Hopened | reflexivity].
Defined.

(** ** One instance for the whole program *)

Lemma run_stored_allocated {St} (host : Host St) (calls : list ModuleCall)
    (ms : ModuleState) (lib : FFIRenderLib St) :
  opentuiLib ms = Some lib →
  allocated (snd (run host calls ms)) = allocated ms.
Proof.
  revert ms. induction calls as [| c calls IH]; intros ms Hlib; [done |].
  destruct c as [p |]; cbn [run].
  - by rewrite IH.
  - assert (Hcall : resolveRenderLib host ms = (Ok lib, ms))
      by (unfold resolveRenderLib; by rewrite Hlib).
    rewrite Hcall. specialize (IH ms Hlib).
    by destruct (run host calls ms).
Qed.

Lemma run_fresh {St} (host : Host St) (calls : list ModuleCall)
    (ms : ModuleState) :
  opentuiLib ms = None → allocated ms = 0 →
  (∀ lib, Ok lib ∈ fst (run host calls ms) →
          opentuiLib (snd (run host calls ms)) = Some lib ∧ self lib = 0)
  ∧ allocated (snd (run host calls ms)) ≤ 1.
Proof.
  revert ms. induction calls as [| c calls IH]; intros ms Hnone Hzero.
  { cbn. split; [| lia]. intros lib Hin. by apply elem_of_nil in Hin. }
  destruct c as [p |]; cbn [run].
  - by apply IH.
  - unfold resolveRenderLib at 1 2 3. rewrite Hnone.
    destruct (newFFIRenderLib host (allocated ms) (opentuiLibPath ms))
      as [lib | msg] eqn:Hnew.
    + set (ms1 := {| opentuiLibPath := opentuiLibPath ms;
                     opentuiLib := Some lib;
                     allocated := S (allocated ms) |}).
      destruct (run_stored host calls ms1 lib eq_refl) as [Hall Hkept].
      pose proof (run_stored_allocated host calls ms1 lib eq_refl) as Hcount.
      destruct (run host calls ms1) as [rs ms2]. cbn [fst snd] in *.
      assert (Hself : self lib = 0).
      { unfold newFFIRenderLib in Hnew.
        destruct (getOpenTUILib host (opentuiLibPath ms)); [| done].
        injection Hnew as <-. cbn. lia. }
      split; [| rewrite Hcount; cbn; lia].
      intros lib' [Hhead | Htail]%elem_of_cons.
      * by injection Hhead as ->.
      * rewrite Forall_forall in Hall. apply Hall in Htail.
        by injection Htail as ->.
    + destruct (IH ms Hnone Hzero) as [Hin Hcount].
      destruct (run host calls ms) as [rs ms2]. cbn [fst snd] in *.
      split; [| done].
      intros lib' [Hhead | Htail]%elem_of_cons; [done | by apply Hin].
Qed.

(** X5.  In any sequence of [setRenderLibPath] and [resolveRenderLib]
    calls of a program, however many of the [resolveRenderLib] calls
    raise, all the calls that return give one and the same instance, it
    is the one the module keeps at the end, and no second instance is ever
    constructed. *)
Theorem resolveRenderLib_single_instance {St} (host : Host St)
    (calls : list ModuleCall) :
  let results := fst (run host calls initialModuleState) in
  let final := snd (run host calls initialModuleState) in
  (∀ lib lib', Ok lib ∈ results → Ok lib' ∈ results → lib = lib')
  ∧ (∀ lib, Ok lib ∈ results → opentuiLib final = Some lib)
  ∧ allocated final ≤ 1.
Proof.
  cbv zeta.
  destruct (run_fresh host calls (initialModuleState (St:=St)) eq_refl eq_refl)
    as [Hin Hcount].
  split; [| split; [| done]].
  - intros lib lib' Hlib Hlib'.
    destruct (Hin lib Hlib) as [Hkept _]. destruct (Hin lib' Hlib') as [Hkept' _].
    congruence.
  - intros lib Hlib. by destruct (Hin lib Hlib).
Qed.

(** X5 on the host without a packaged library: a failing call, a path, two
    more calls. *)
Lemma resolveRenderLib_single_instance_witness :
  let calls := [CallResolveRenderLib;
                CallSetRenderLibPath "/opt/libopentui.so";
                CallResolveRenderLib;
                CallSetRenderLibPath "/elsewhere.so";
                CallResolveRenderLib] in
  List.map is_ok (fst (run bareHost calls initialModuleState))
  = [false; true; true]
  ∧ allocated (snd (run bareHost calls initialModuleState)) ≤ 1.
Proof.
  cbv zeta. split; [reflexivity |].
  exact (proj2 (proj2 (resolveRenderLib_single_instance bareHost
                         [CallResolveRenderLib;
                          CallSetRenderLibPath "/opt/libopentui.so";
                          CallResolveRenderLib;
                          CallSetRenderLibPath "/elsewhere.so";
                          CallResolveRenderLib]))).
Defined.

(** ** Lengths passed with encoded text *)

(** X6.  [setCursorStyle] passes the UTF-8 bytes of the style together
    with [style.length], the number of UTF-16 code units, not the number
    of bytes.  That length never exceeds the number of bytes passed, and
    it is the number of bytes exactly when the style is ASCII; an ASCII
    style is passed as its character codes. *)
Theorem setCursorStyle_passes_utf16_length {St} (cursor : CursorSymbols St)
    (style : JSString) (blinking : bool) (s : St) :
  ∃ (bytes : list N) (len : N),
    setCursorStyle cursor style blinking s
      = (Ok tt, sym_setCursorStyle cursor bytes len blinking s)
    ∧ bytes = encode style
    ∧ len = N.of_nat (length style)
    ∧ (len ≤ byteLength bytes)%N
    ∧ (len = byteLength bytes ↔ Forall (λ u, (u < 0x80)%N) style)
    ∧ (Forall (λ u, (u < 0x80)%N) style → bytes = style).
Proof.
  exists (encode style), (N.of_nat (length style)).
  split; [done |]. split; [done |]. split; [done |].
  unfold byteLength. pose proof (encode_length_ge style) as Hge.
  split; [lia |]. split; [| apply encode_ascii].
  split.
  - intros Hlen. apply encode_length_eq_ascii. lia.
  - intros Hascii. by rewrite encode_ascii.
Qed.

(** X6 at the style "block", and at a style of one accented letter, for
    which two bytes are passed with length 1. *)
Lemma setCursorStyle_passes_utf16_length_witness :
  setCursorStyle loggingCursor (js "block") true []
  = (Ok tt, [("setCursorStyle"%string, [5; 98; 108; 111; 99; 107]%Z)])
  ∧ setCursorStyle loggingCursor [0xE9%N] true []
    = (Ok tt, [("setCursorStyle"%string, [1; 195; 169]%Z)]).
Proof.
  destruct (setCursorStyle_passes_utf16_length loggingCursor (js "block")
              true [])
    as (bytes & len & Hcall & _ & -> & _ & _ & Hascii).
  rewrite (Hascii ltac:(repeat constructor)) in Hcall.
  split; [exact Hcall | reflexivity].
Defined.

(** X7.  For a text of 16-bit code units, [bufferDrawText] passes bytes
    (values below 256) whose number, which is the length it passes, lies
    between [text.length] and three times [text.length]; an ASCII text is
    passed as its character codes, with [text.length] as length. *)
Theorem bufferDrawText_byte_count {St} (this : FFIRenderLib St)
    (buffer : Pointer) (text : JSString) (x y : N) (color : RGBA)
    (bgColor : option RGBA) (attributes : option N) (s : St) :
  Forall (λ u, (u < 0x10000)%N) text →
  ∃ (bytes : list N) (len : N),
    bufferDrawText this buffer text x y color bgColor attributes s
      = (Ok tt, sym_bufferDrawText (opentui this) buffer bytes len x y
                  (RGBA.buffer color) (RGBA.buffer <$> bgColor)
                  (attributes ?? 0%N) s)
    ∧ len = N.of_nat (length bytes)
    ∧ Forall (λ b, (b < 256)%N) bytes
    ∧ (N.of_nat (length text) ≤ len ≤ 3 * N.of_nat (length text))%N
    ∧ (Forall (λ u, (u < 0x80)%N) text →
       bytes = text ∧ len = N.of_nat (length text)).
Proof.
  intros Hunits. exists (encode text), (byteLength (encode text)).
  split; [by destruct bgColor |]. split; [done |].
  split; [by apply encode_bytes |].
  unfold byteLength.
  pose proof (encode_length_ge text) as Hge.
  pose proof (encode_length_le text Hunits) as Hle.
  split; [lia |].
  intros Hascii. by rewrite encode_ascii.
Qed.

(** X7 at the text "hi": the two character codes, with length 2. *)
Lemma bufferDrawText_byte_count_witness :
  bufferDrawText loggingLibrary 7%N (js "hi") 1 2
    (RGBA.mk [1%Q; 1%Q; 1%Q; 1%Q]) None None []
  = (Ok tt, [("bufferDrawText"%string, [7; 1; 2; 0; 2; 104; 105]%Z)]).
Proof.
  destruct (bufferDrawText_byte_count loggingLibrary 7%N (js "hi") 1 2
              (RGBA.mk [1%Q; 1%Q; 1%Q; 1%Q]) None None []
              ltac:(repeat constructor))
    as (bytes & len & Hcall & _ & _ & _ & Hascii).
  destruct (Hascii ltac:(repeat constructor)) as [-> ->].
  exact Hcall.
Defined.

(** ** One cell and the first cell of a text *)

Lemma firstCodePointOrSpace_cons (hi : N) (rest : JSString) :
  (leadsPair hi rest = false ∧ firstCodePointOrSpace (hi :: rest) = hi)
  ∨ (∃ lo rest', rest = lo :: rest' ∧ leadsPair hi rest = true
       ∧ firstCodePointOrSpace (hi :: rest) = combine_surrogates hi lo).
Proof.
  unfold leadsPair, firstCodePointOrSpace. cbn [code_points].
  destruct (is_high_surrogate hi); [| by left].
  destruct rest as [| lo rest']; [by left |].
  destruct (is_low_surrogate lo); [right; by exists lo, rest' | by left].
Qed.

Lemma bufferSetCell_call {St} (this : FFIRenderLib St) (buffer : Pointer)
    (x y : N) (string : JSString) (color bgColor : RGBA)
    (attributes : option N) (s : St) :
  bufferSetCellWithAlphaBlending this buffer x y string color bgColor
      attributes s
  = (Ok tt, sym_bufferSetCellWithAlphaBlending (opentui this) buffer x y
              (firstCodePointOrSpace string) (RGBA.buffer color)
              (RGBA.buffer bgColor) (attributes ?? 0%N) s).
Proof.
  unfold bufferSetCellWithAlphaBlending. cbv zeta.
  rewrite codePointAt0_code_points. unfold firstCodePointOrSpace.
  by destruct (code_points string).
Qed.

(** X8.  For the same non-empty string, the bytes that [bufferDrawText]
    passes begin with the UTF-8 form of the code point that
    [bufferSetCellWithAlphaBlending] passes, unless that code point is a
    lone surrogate: then the cell gets the surrogate itself while the
    text begins with the bytes of U+FFFD.  For the empty string the cell
    gets a space and the text no byte at all. *)
Theorem cell_and_text_agree_on_first_code_point {St} (this : FFIRenderLib St)
    (buffer : Pointer) (string : JSString) (x y : N) (color bgColor : RGBA)
    (attributes : option N) (s : St) :
  ∃ (codepoint : N) (bytes : list N) (len : N),
    bufferSetCellWithAlphaBlending this buffer x y string color bgColor
        attributes s
      = (Ok tt, sym_bufferSetCellWithAlphaBlending (opentui this) buffer x y
                  codepoint (RGBA.buffer color) (RGBA.buffer bgColor)
                  (attributes ?? 0%N) s)
    ∧ bufferDrawText this buffer string x y color (Some bgColor) attributes s
      = (Ok tt, sym_bufferDrawText (opentui this) buffer bytes len x y
                  (RGBA.buffer color) (Some (RGBA.buffer bgColor))
                  (attributes ?? 0%N) s)
    ∧ len = byteLength bytes
    ∧ (string = [] → codepoint = 32%N ∧ bytes = [])
    ∧ (string ≠ [] → is_surrogate codepoint = false →
       ∃ tail, bytes = utf8_of_code_point codepoint ++ tail)
    ∧ (string ≠ [] → is_surrogate codepoint = true →
       ∃ tail, string = codepoint :: tail
               ∧ bytes = utf8_of_code_point 0xFFFD ++ encode tail).
Proof.
  exists (firstCodePointOrSpace string), (encode string),
    (byteLength (encode string)).
  split; [apply bufferSetCell_call |]. split; [done |]. split; [done |].
  split; [by intros -> |].
  destruct string as [| hi rest]; [done |].
  destruct (firstCodePointOrSpace_cons hi rest)
    as [[Hlead ->] | (lo & rest' & -> & Hlead & ->)].
  - split; intros _ Hsur.
    + exists (encode rest). rewrite encode_single by done.
      destruct (scalar_value_cases hi) as [[_ ->] | [Hyes _]]; [done |].
      congruence.
    + exists rest. split; [done |]. rewrite encode_single by done.
      destruct (scalar_value_cases hi) as [[Hno _] | (_ & -> & _)]; [| done].
      congruence.
  - split; intros _ Hsur.
    + exists (encode rest'). by rewrite encode_pair.
    + pose proof (combine_surrogates_ge hi lo) as Hge.
      destruct (scalar_value_cases (combine_surrogates hi lo))
        as [[Hno _] | (_ & _ & Hrange)]; [congruence | lia].
Qed.

(** X8 at a string that starts with an unpaired high surrogate: the cell
    gets U+D83D, the text starts with the three bytes of U+FFFD. *)
Lemma cell_and_text_agree_on_first_code_point_witness :
  bufferSetCellWithAlphaBlending loggingLibrary 7%N 0 0 [0xD83D%N; 0x41%N]
    (RGBA.mk [1%Q; 1%Q; 1%Q; 1%Q]) (RGBA.mk [0%Q; 0%Q; 0%Q; 1%Q]) None []
  = (Ok tt, [("bufferSetCellWithAlphaBlending"%string, [7; 0; 0; 55357; 0]%Z)])
  ∧ bufferDrawText loggingLibrary 7%N [0xD83D%N; 0x41%N] 0 0
      (RGBA.mk [1%Q; 1%Q; 1%Q; 1%Q]) (Some (RGBA.mk [0%Q; 0%Q; 0%Q; 1%Q]))
      None []
    = (Ok tt, [("bufferDrawText"%string, [7; 0; 0; 0; 4; 239; 191; 189; 65]%Z)]).
Proof.
  destruct (cell_and_text_agree_on_first_code_point loggingLibrary 7%N
              [0xD83D%N; 0x41%N] 0 0 (RGBA.mk [1%Q; 1%Q; 1%Q; 1%Q])
              (RGBA.mk [0%Q; 0%Q; 0%Q; 1%Q]) None [])
    as (codepoint & bytes & len & Hcell & Htext & -> & _ & _ & Hlone).
  assert (Hcp : codepoint = 0xD83D%N).
  { pose proof Hcell as Hlog. cbv -[Z.of_N] in Hlog.
    injection Hlog as Hlog. lia. }
  subst codepoint.
  destruct (Hlone ltac:(discriminate) eq_refl) as (tail & [= <-] & ->).
  split; [exact Hcell | exact Htext].
Defined.

(** X9.  For a string of 16-bit code units, the code point that
    [bufferSetCellWithAlphaBlending] passes is at most U+10FFFF, and it is
    below U+10000 unless the string starts with a surrogate pair. *)
Theorem bufferSetCell_code_point_in_range {St} (this : FFIRenderLib St)
    (buffer : Pointer) (x y : N) (char : JSString) (color bgColor : RGBA)
    (attributes : option N) (s : St) :
  Forall (λ u, (u < 0x10000)%N) char →
  ∃ codepoint : N,
    bufferSetCellWithAlphaBlending this buffer x y char color bgColor
        attributes s
      = (Ok tt, sym_bufferSetCellWithAlphaBlending (opentui this) buffer x y
                  codepoint (RGBA.buffer color) (RGBA.buffer bgColor)
                  (attributes ?? 0%N) s)
    ∧ (codepoint < 0x110000)%N
    ∧ ((0x10000 ≤ codepoint)%N ↔
       ∃ hi rest, char = hi :: rest ∧ leadsPair hi rest = true).
Proof.
  intros Hunits. exists (firstCodePointOrSpace char).
  split; [apply bufferSetCell_call |].
  destruct char as [| hi rest].
  { cbn. split; [lia |]. split; [lia | by intros (hi & rest & [= ] & _)]. }
  apply Forall_cons in Hunits as [Hhi Hrest].
  destruct (firstCodePointOrSpace_cons hi rest)
    as [[Hlead ->] | (lo & rest' & -> & Hlead & ->)].
  - split; [lia |]. split; [lia |].
    intros (hi' & rest' & [= <- <-] & Hlead'). congruence.
  - pose proof (combine_surrogates_ge hi lo) as Hge.
    apply andb_true_iff in Hlead as [Hhigh Hlow].
    split; [by apply combine_surrogates_bound |].
    split; [| done]. intros _. exists hi, (lo :: rest').
    split; [done |]. unfold leadsPair. by rewrite Hhigh, Hlow.
Qed.

(** X9 at the pair D83D DE00, which is U+1F600. *)
Lemma bufferSetCell_code_point_in_range_witness :
  bufferSetCellWithAlphaBlending loggingLibrary 7%N 0 0 [0xD83D%N; 0xDE00%N]
    (RGBA.mk [1%Q; 1%Q; 1%Q; 1%Q]) (RGBA.mk [0%Q; 0%Q; 0%Q; 1%Q]) None []
  = (Ok tt, [("bufferSetCellWithAlphaBlending"%string, [7; 0; 0; 128512; 0]%Z)]).
Proof.
  destruct (bufferSetCell_code_point_in_range loggingLibrary 7%N 0 0
              [0xD83D%N; 0xDE00%N] (RGBA.mk [1%Q; 1%Q; 1%Q; 1%Q])
              (RGBA.mk [0%Q; 0%Q; 0%Q; 1%Q]) None []
              ltac:(repeat constructor))
    as (codepoint & Hcall & _).
  assert (Hcp : codepoint = 0x1F600%N).
  { pose proof Hcall as Hlog. cbv -[Z.of_N] in Hlog.
    injection Hlog as Hlog. lia. }
  subst codepoint. exact Hcall.
Defined.

(** ** The errors of [resolveRenderLib] *)

(** X10.  When [resolveRenderLib] raises, the module state is what it was
    and no instance is stored.  The error is [dlopen]'s error for the path
    it tried, or, only when no path or the empty path was set, the
    message of [findLibrary] that names the platform; in that case
    [dlopen] is not tried at all. *)
Theorem resolveRenderLib_errors {St} (host : Host St) (ms ms' : ModuleState)
    (msg : string) :
  resolveRenderLib host ms = (Throw msg, ms') →
  ms' = ms
  ∧ opentuiLib ms = None
  ∧ ((∃ path, resolvedLibPath host (opentuiLibPath ms) = Ok path
              ∧ dlopen host path = Throw msg)
     ∨ ((opentuiLibPath ms = None ∨ opentuiLibPath ms = Some ""%string)
        ∧ findLibrary host = Throw msg
        ∧ msg = ("opentui is not supported on the current platform: "
                   +:+ platform host +:+ "-" +:+ arch host)%string)).
Proof.
  unfold resolveRenderLib, newFFIRenderLib, getOpenTUILib.
  destruct (opentuiLib ms) as [lib |]; [done |].
  destruct (resolvedLibPath host (opentuiLibPath ms)) as [path | msg']
    eqn:Hpath.
  - destruct (dlopen host path) as [lib | msg'] eqn:Hopen; [done |].
    intros [= <- <-]. split; [done |]. split; [done |]. left. by exists path.
  - intros [= <- <-]. split; [done |]. split; [done |]. right.
    unfold resolvedLibPath in Hpath.
    assert (Hfind : findLibrary host = Throw msg'
                    ∧ (opentuiLibPath ms = None
                       ∨ opentuiLibPath ms = Some ""%string)).
    { destruct (opentuiLibPath ms) as [p |]; [| by auto].
      destruct (String.eqb_spec p ""); [subst; by auto | done]. }
    destruct Hfind as [Hfind Hunset]. split; [done |]. split; [done |].
    unfold findLibrary in Hfind.
    destruct (require_resolve host _) as [found |].
    + destruct (existsSync host found); [done |]. by injection Hfind as <-.
    + by injection Hfind as <-.
Qed.

(** X10 on the host without a packaged library, with no path set. *)
Lemma resolveRenderLib_errors_witness :
  resolveRenderLib bareHost initialModuleState
  = (Throw "opentui is not supported on the current platform: linux-x64",
     initialModuleState)
  ∧ opentuiLib (initialModuleState (St:=unit)) = None.
Proof.
  destruct (resolveRenderLib_errors bareHost initialModuleState
              initialModuleState
              "opentui is not supported on the current platform: linux-x64"
              eq_refl) as (_ & Hnone & _).
  split; [reflexivity | exact Hnone].
Defined.
